(** * Specklepy dashboard: resource wrappers, credentials and dashboard aggregates

    A shallow embedding of
    - [src/specklepy/api/resources/stream.py]  (the tracking stream resource),
    - [speckle/api/resources/object.py]        (the object resource),
    - [src/specklepy/api/credentials.py]       (local accounts),
    - [front_end/main.py]                      (the dashboard script),
    followed by the properties of these programs. *)

From Stdlib Require Import ZArith List String Ascii Bool Lia Permutation Sorted.
Import ListNotations.

Local Open Scope string_scope.
Local Open Scope list_scope.
Local Open Scope Z_scope.

(** ** Python values, exceptions and outcomes *)

Module Py.

(** JSON-like values: what the request executor returns and what goes into
    the [params] of a request. A [dict] keeps its insertion order. *)
#[warnings="-register-all"]
Inductive pyval : Type :=
| PNone
| PBool (b : bool)
| PInt (z : Z)
| PStr (s : string)
| PList (l : list pyval)
| PDict (d : list (string * pyval)).

Inductive exn : Type :=
| UnsupportedException (msg : string)
| GraphQLException (msg : string)
| TypeError (msg : string)
| KeyError (key : string)
| IndexError (msg : string)
| ValueError (msg : string)
| ValidationError (msg : string).

(** A call either returns a value or raises. *)
Inductive outcome (A : Type) : Type :=
| Ret (a : A)
| Raise (e : exn).
Arguments Ret {A} a.
Arguments Raise {A} e.

Definition returned {A} (o : outcome A) : bool :=
  match o with Ret _ => true | Raise _ => false end.

(** [d[key]] on a mapping. *)
Fixpoint dict_get {V} (d : list (string * V)) (key : string) : option V :=
  match d with
  | [] => None
  | (k, v) :: d' => if String.eqb k key then Some v else dict_get d' key
  end.

Definition getitem (v : pyval) (key : string) : outcome pyval :=
  match v with
  | PDict d =>
      match dict_get d key with
      | Some x => Ret x
      | None => Raise (KeyError key)
      end
  | _ => Raise (TypeError "object is not subscriptable")
  end.

(** [needle in haystack] on strings. *)
Fixpoint startswith (p s : string) : bool :=
  match p, s with
  | EmptyString, _ => true
  | String a p', String b s' => Ascii.eqb a b && startswith p' s'
  | String _ _, EmptyString => false
  end.

Fixpoint contains (needle haystack : string) : bool :=
  startswith needle haystack
  || match haystack with
     | EmptyString => false
     | String _ rest => contains needle rest
     end.

End Py.
Import Py.

(** ** Server versions and Python tuple comparison *)

Module Version.

(** [server_version] is a tuple of segments: integers, or the tag ["dev"]. *)
Inductive segment : Type :=
| VInt (n : Z)
| VStr (s : string).

Definition version := list segment.

(** [x == y] on segments: an [int] never equals a [str]. *)
Definition seg_eq (x y : segment) : bool :=
  match x, y with
  | VInt a, VInt b => a =? b
  | VStr a, VStr b => String.eqb a b
  | _, _ => false
  end.

(** [x >= y] on segments: comparing an [int] with a [str] raises. *)
Definition seg_ge (x y : segment) : outcome bool :=
  match x, y with
  | VInt a, VInt b => Ret (b <=? a)
  | VStr a, VStr b => Ret (String.leb b a)
  | _, _ => Raise (TypeError "'>=' not supported between instances of 'int' and 'str'")
  end.

(** [a == b] on tuples. *)
Fixpoint tuple_eq (a b : version) : bool :=
  match a, b with
  | [], [] => true
  | x :: a', y :: b' => seg_eq x y && tuple_eq a' b'
  | _, _ => false
  end.

(** [a >= b] on tuples: the first pair of unequal items decides; when one
    tuple is a prefix of the other the lengths decide. *)
Fixpoint tuple_ge (a b : version) : outcome bool :=
  match a, b with
  | _, [] => Ret true
  | [], _ :: _ => Ret false
  | x :: a', y :: b' => if seg_eq x y then tuple_ge a' b' else seg_ge x y
  end.

(** Truth value of [self.server_version]: [None] and [()] are falsy. *)
Definition truthy (sv : option version) : bool :=
  match sv with
  | None | Some [] => false
  | Some (_ :: _) => true
  end.

Definition dev : version := [VStr "dev"].
Definition numeric (zs : list Z) : version := map VInt zs.

(** The order on numeric versions, as a version number is read: the first
    segment that differs decides, a version that runs out first is lower. *)
Fixpoint at_least (v threshold : list Z) : bool :=
  match threshold, v with
  | [], _ => true
  | _ :: _, [] => false
  | t :: ts, x :: xs => (t <? x) || ((t =? x) && at_least xs ts)
  end.

End Version.
Import Version.

(** ** The world a resource call runs in *)

Module World.

(** Modelled from the spec: the [Account] record of
    [specklepy.core.api.credentials] is not under src/; the spec gives it a
    server URL, an authentication token and a default-account flag. *)
Record Account : Type := mkAccount {
  acc_id : string;
  serverUrl : string;
  token : string;
  isDefault : bool
}.

(** The action categories of [specklepy.logging.metrics]. *)
Inductive action : Type := SDK | STREAM | PERMISSION | INVITE.

(** One call [metrics.track(action, account, custom_props)]. *)
Record track_event : Type := mkEvent {
  ev_action : action;
  ev_account : option Account;
  ev_props : list (string * string)
}.

(** What is put on the wire by the request executor. *)
Record request : Type := mkRequest {
  query : string;
  params : list (string * pyval)
}.

Record world : Type := mkWorld {
  tracked : list track_event;   (* calls made to metrics.track *)
  queued : list track_event;    (* events the telemetry backend accepted *)
  warned : list string;         (* DeprecationWarning messages issued *)
  sent : list request           (* requests handed to the request executor *)
}.

Definition empty_world : world := mkWorld [] [] [] [].

(** Computations over a state [S]: they may raise, and what they did before
    raising stays done. *)
Definition ST (S A : Type) : Type := S -> outcome A * S.

Definition ret {S A} (a : A) : ST S A := fun w => (Ret a, w).
Definition raise {S A} (e : exn) : ST S A := fun w => (Raise e, w).
Definition bind {S A B} (m : ST S A) (k : A -> ST S B) : ST S B :=
  fun w =>
    match m w with
    | (Ret a, w') => k a w'
    | (Raise e, w') => (Raise e, w')
    end.
Definition lift {S A} (o : outcome A) : ST S A := fun w => (o, w).

(** A resource call runs in the [world]. *)
Definition M (A : Type) : Type := ST world A.

Definition result {S A} (r : outcome A * S) : outcome A := fst r.
Definition final {S A} (r : outcome A * S) : S := snd r.

End World.
Import World.

Declare Scope py_scope.
Delimit Scope py_scope with py.
Notation "x <- m ;; k" := (bind m (fun x => k))
  (at level 61, m at next level, right associativity) : py_scope.
Notation "m ;; k" := (bind m (fun _ => k))
  (at level 61, right associativity) : py_scope.
Local Open Scope py_scope.

(** ** Collaborators of a resource: telemetry and request execution *)

Section Collaborators.

(** The telemetry backend: [None] when it accepts the event, [Some e] when
    emitting the event fails with [e]. *)
Variable tracker : track_event -> option exn.

(** The request executor ([client.execute]): the raw response, or a failure. *)
Variable executor : request -> outcome pyval.

(** Modelled from the spec: [metrics.track] of [specklepy.logging.metrics] is
    not under src/. The spec makes it a fire-and-forget usage-tracking event
    whose failures are swallowed: they never reach the caller. Every call is
    recorded in [tracked]; the event reaches [queued] only when the backend
    accepts it. *)
Definition metrics_track (a : action) (account : option Account)
    (custom_props : list (string * string)) : M unit :=
  fun w =>
    let ev := mkEvent a account custom_props in
    let q := match tracker ev with
             | None => queued w ++ [ev]
             | Some _ => queued w
             end in
    (Ret tt, mkWorld (tracked w ++ [ev]) q (warned w) (sent w)).

(** [warnings.warn(msg, DeprecationWarning)], issued by [@deprecated]. *)
Definition warn (msg : string) : M unit :=
  fun w => (Ret tt, mkWorld (tracked w) (queued w) (warned w ++ [msg]) (sent w)).

(** Walk into the response along the declared path. *)
Fixpoint step_into_response (response : pyval) (return_type : list string)
    : outcome pyval :=
  match return_type with
  | [] => Ret response
  | key :: rest =>
      match getitem response key with
      | Ret inner => step_into_response inner rest
      | Raise e => Raise e
      end
  end.

(** Modelled from the spec: [ResourceBase.make_request] is not under src/.
    The spec has it delegate execution to the request executor (one request
    per call), surface a failure of the executor to the caller, unwrap the
    response at the declared path and deserialize the payload with the
    schema of the resource; [parse] is the identity under
    [parse_response=False]. *)
Definition make_request {A} (q : string) (ps : list (string * pyval))
    (return_type : list string) (parse : pyval -> outcome A) : M A :=
  fun w =>
    let req := mkRequest q ps in
    let w' := mkWorld (tracked w) (queued w) (warned w) (sent w ++ [req]) in
    match executor req with
    | Raise e => (Raise e, w')
    | Ret response =>
        match step_into_response response return_type with
        | Raise e => (Raise e, w')
        | Ret payload => (parse payload, w')
        end
    end.

Definition unparsed (v : pyval) : outcome pyval := Ret v.

End Collaborators.

(** ** The stream resource ([specklepy/api/resources/stream.py]) *)

Module StreamResource.

(** The fields of [self] the methods read. *)
Record Resource : Type := mkResource {
  account : option Account;
  server_version : option version
}.

(** A call on the base resource [Core_Resource]: the method and its
    arguments, in the order of the method's signature. *)
Inductive stream_call : Type :=
| Get (id : string) (branch_limit commit_limit : Z)
| List_ (stream_limit : Z)
| Create (name description : string) (is_public : bool)
| Update (id : string) (name description : option string) (is_public : option bool)
| Delete (id : string)
| Search (search_query : string) (limit branch_limit commit_limit : Z)
| Favorite (stream_id : string) (favorited : bool)
| GrantPermission (stream_id user_id role : string)
| GetAllPendingInvites (stream_id : string)
| Invite (stream_id : string) (email user_id : option string) (role : string)
         (message : option string)
| InviteBatch (stream_id : string) (emails user_ids : option (list string))
              (message : option string)
| InviteCancel (stream_id invite_id : string)
| InviteUse (stream_id token : string) (accept : bool)
| UpdatePermission (stream_id user_id role : string)
| RevokePermission (stream_id user_id : string).

(** The name of the method a call goes to. *)
Definition method_name (c : stream_call) : string :=
  match c with
  | Get _ _ _ => "get"
  | List_ _ => "list"
  | Create _ _ _ => "create"
  | Update _ _ _ _ => "update"
  | Delete _ => "delete"
  | Search _ _ _ _ => "search"
  | Favorite _ _ => "favorite"
  | GrantPermission _ _ _ => "grant_permission"
  | GetAllPendingInvites _ => "get_all_pending_invites"
  | Invite _ _ _ _ _ => "invite"
  | InviteBatch _ _ _ _ => "invite_batch"
  | InviteCancel _ _ => "invite_cancel"
  | InviteUse _ _ _ => "invite_use"
  | UpdatePermission _ _ _ => "update_permission"
  | RevokePermission _ _ => "revoke_permission"
  end.

Definition is_grant_permission (c : stream_call) : bool :=
  match c with GrantPermission _ _ _ => true | _ => false end.

Definition deprecated_reason : string :=
  "As of Speckle Server v2.6.4, this method is deprecated. Users need to be invited and accept the invite before being added to a stream".

Definition unsupported_message : string :=
  "Server mutation `grant_permission` is no longer supported as of Speckle Server v2.6.4. Please use the new `update_permission` method to change an existing user's permission or use the `invite` method to invite a user to a stream.".

Definition StreamGrantPermission : string :=
  "mutation StreamGrantPermission( $permission_params: StreamGrantPermissionInput ! ) { streamGrantPermission(permissionParams: $permission_params) }".

(** The condition of the [if] in [grant_permission]:
    [self.server_version and (self.server_version == ("dev",)
                              or self.server_version >= (2, 6, 4))]. *)
Definition no_longer_supported (sv : option version) : outcome bool :=
  match sv with
  | None => Ret false
  | Some v =>
      if truthy (Some v)
      then if tuple_eq v [VStr "dev"]
           then Ret true
           else tuple_ge v [VInt 2; VInt 6; VInt 4]
      else Ret false
  end.

Section Methods.

Variable tracker : track_event -> option exn.
Variable executor : request -> outcome pyval.

(** [Core_Resource] ([specklepy.core.api.resources.stream]) is not under
    src/: the base resource is a parameter. It is the tracking-free layer
    of the package, so a call on it works on the request log only. *)
Variable Core_Resource :
  stream_call -> list request -> outcome pyval * list request.

Variable self : Resource.

(** [super().method(args)]. *)
Definition super (c : stream_call) : M pyval :=
  fun w =>
    let (r, s) := Core_Resource c (sent w) in
    (r, mkWorld (tracked w) (queued w) (warned w) s).

Definition track := metrics_track tracker.

Definition get (id : string) (branch_limit commit_limit : Z) : M pyval :=
  track STREAM (account self) [("name", "get")] ;;
  super (Get id branch_limit commit_limit).

(** The method [list]. *)
Definition list_ (stream_limit : Z) : M pyval :=
  track STREAM (account self) [("name", "get")] ;;
  super (List_ stream_limit).

Definition create (name description : string) (is_public : bool) : M pyval :=
  track STREAM (account self) [("name", "create")] ;;
  super (Create name description is_public).

Definition update (id : string) (name description : option string)
    (is_public : option bool) : M pyval :=
  track STREAM (account self) [("name", "update")] ;;
  super (Update id name description is_public).

Definition delete (id : string) : M pyval :=
  track STREAM (account self) [("name", "delete")] ;;
  super (Delete id).

Definition search (search_query : string) (limit branch_limit commit_limit : Z)
    : M pyval :=
  track STREAM (account self) [("name", "search")] ;;
  super (Search search_query limit branch_limit commit_limit).

Definition favorite (stream_id : string) (favorited : bool) : M pyval :=
  track STREAM (account self) [("name", "favorite")] ;;
  super (Favorite stream_id favorited).

(** Decorated with [@deprecated(version="2.6.4", reason=...)]: the warning
    is issued on every call, before the body runs. *)
Definition grant_permission (stream_id user_id role : string) : M pyval :=
  warn deprecated_reason ;;
  track PERMISSION (account self) [("name", "add"); ("role", role)] ;;
  rejected <- lift (no_longer_supported (server_version self)) ;;
  if (rejected : bool)
  then raise (UnsupportedException unsupported_message)
  else make_request executor StreamGrantPermission
         [("permission_params",
           PDict [("streamId", PStr stream_id);
                  ("userId", PStr user_id);
                  ("role", PStr role)])]
         ["streamGrantPermission"] unparsed.

Definition get_all_pending_invites (stream_id : string) : M pyval :=
  track INVITE (account self) [("name", "get")] ;;
  super (GetAllPendingInvites stream_id).

Definition invite (stream_id : string) (email user_id : option string)
    (role : string) (message : option string) : M pyval :=
  track INVITE (account self) [("name", "create")] ;;
  super (Invite stream_id email user_id role message).

Definition invite_batch (stream_id : string)
    (emails user_ids : option (list string)) (message : option string)
    : M pyval :=
  track INVITE (account self) [("name", "batch create")] ;;
  super (InviteBatch stream_id emails user_ids message).

Definition invite_cancel (stream_id invite_id : string) : M pyval :=
  track INVITE (account self) [("name", "cancel")] ;;
  super (InviteCancel stream_id invite_id).

Definition invite_use (stream_id token : string) (accept : bool) : M pyval :=
  track INVITE (account self) [("name", "use")] ;;
  super (InviteUse stream_id token accept).

Definition update_permission (stream_id user_id role : string) : M pyval :=
  track PERMISSION (account self) [("name", "update"); ("role", role)] ;;
  super (UpdatePermission stream_id user_id role).

Definition revoke_permission (stream_id user_id : string) : M pyval :=
  track PERMISSION (account self) [("name", "revoke")] ;;
  super (RevokePermission stream_id user_id).

(** A call on the tracking resource goes to the method of that name. *)
Definition call (c : stream_call) : M pyval :=
  match c with
  | Get id bl cl => get id bl cl
  | List_ n => list_ n
  | Create n d p => create n d p
  | Update id n d p => update id n d p
  | Delete id => delete id
  | Search q l bl cl => search q l bl cl
  | Favorite sid f => favorite sid f
  | GrantPermission sid uid role => grant_permission sid uid role
  | GetAllPendingInvites sid => get_all_pending_invites sid
  | Invite sid e u r m => invite sid e u r m
  | InviteBatch sid es us m => invite_batch sid es us m
  | InviteCancel sid i => invite_cancel sid i
  | InviteUse sid t a => invite_use sid t a
  | UpdatePermission sid uid role => update_permission sid uid role
  | RevokePermission sid uid => revoke_permission sid uid
  end.

End Methods.

(** The [name] tag of an event. *)
Definition name_tag (ev : track_event) : option string :=
  dict_get (ev_props ev) "name".

(** The events a call added to the log of [metrics.track] calls. *)
Definition emitted (before after : world) : list track_event :=
  skipn (List.length (tracked before)) (tracked after).

(** The requests a call handed to the request executor. *)
Definition requested (before after : world) : list request :=
  skipn (List.length (sent before)) (sent after).

End StreamResource.

(** ** The stream resource over any tracking call *)

(** The methods of [stream.py] once more, with the call [metrics.track] itself
    as a parameter: it may return or raise, and a method does with either
    what its source text does. [StreamResource] is the instance where the
    call is [metrics_track]. *)
Module StreamWrappers.
Import StreamResource.

Section Methods.

(** [metrics.track(action, account, custom_props)], as the methods see it. *)
Variable track : action -> option Account -> list (string * string) -> M unit.

Variable executor : request -> outcome pyval.

Variable Core_Resource :
  stream_call -> list request -> outcome pyval * list request.

Variable self : Resource.

Definition get (id : string) (branch_limit commit_limit : Z) : M pyval :=
  track STREAM (account self) [("name", "get")] ;;
  super Core_Resource (Get id branch_limit commit_limit).

(** The method [list]. *)
Definition list_ (stream_limit : Z) : M pyval :=
  track STREAM (account self) [("name", "get")] ;;
  super Core_Resource (List_ stream_limit).

Definition create (name description : string) (is_public : bool) : M pyval :=
  track STREAM (account self) [("name", "create")] ;;
  super Core_Resource (Create name description is_public).

Definition update (id : string) (name description : option string)
    (is_public : option bool) : M pyval :=
  track STREAM (account self) [("name", "update")] ;;
  super Core_Resource (Update id name description is_public).

Definition delete (id : string) : M pyval :=
  track STREAM (account self) [("name", "delete")] ;;
  super Core_Resource (Delete id).

Definition search (search_query : string) (limit branch_limit commit_limit : Z)
    : M pyval :=
  track STREAM (account self) [("name", "search")] ;;
  super Core_Resource (Search search_query limit branch_limit commit_limit).

Definition favorite (stream_id : string) (favorited : bool) : M pyval :=
  track STREAM (account self) [("name", "favorite")] ;;
  super Core_Resource (Favorite stream_id favorited).

(** What [grant_permission] does once its tracking call has returned. *)
Definition gate_and_send (stream_id user_id role : string) : M pyval :=
  rejected <- lift (no_longer_supported (server_version self)) ;;
  if (rejected : bool)
  then raise (UnsupportedException unsupported_message)
  else make_request executor StreamGrantPermission
         [("permission_params",
           PDict [("streamId", PStr stream_id);
                  ("userId", PStr user_id);
                  ("role", PStr role)])]
         ["streamGrantPermission"] unparsed.

Definition grant_permission (stream_id user_id role : string) : M pyval :=
  warn deprecated_reason ;;
  track PERMISSION (account self) [("name", "add"); ("role", role)] ;;
  gate_and_send stream_id user_id role.

Definition get_all_pending_invites (stream_id : string) : M pyval :=
  track INVITE (account self) [("name", "get")] ;;
  super Core_Resource (GetAllPendingInvites stream_id).

Definition invite (stream_id : string) (email user_id : option string)
    (role : string) (message : option string) : M pyval :=
  track INVITE (account self) [("name", "create")] ;;
  super Core_Resource (Invite stream_id email user_id role message).

Definition invite_batch (stream_id : string)
    (emails user_ids : option (list string)) (message : option string)
    : M pyval :=
  track INVITE (account self) [("name", "batch create")] ;;
  super Core_Resource (InviteBatch stream_id emails user_ids message).

Definition invite_cancel (stream_id invite_id : string) : M pyval :=
  track INVITE (account self) [("name", "cancel")] ;;
  super Core_Resource (InviteCancel stream_id invite_id).

Definition invite_use (stream_id token : string) (accept : bool) : M pyval :=
  track INVITE (account self) [("name", "use")] ;;
  super Core_Resource (InviteUse stream_id token accept).

Definition update_permission (stream_id user_id role : string) : M pyval :=
  track PERMISSION (account self) [("name", "update"); ("role", role)] ;;
  super Core_Resource (UpdatePermission stream_id user_id role).

Definition revoke_permission (stream_id user_id : string) : M pyval :=
  track PERMISSION (account self) [("name", "revoke")] ;;
  super Core_Resource (RevokePermission stream_id user_id).

Definition call (c : stream_call) : M pyval :=
  match c with
  | Get id bl cl => get id bl cl
  | List_ n => list_ n
  | Create n d p => create n d p
  | Update id n d p => update id n d p
  | Delete id => delete id
  | Search q l bl cl => search q l bl cl
  | Favorite sid f => favorite sid f
  | GrantPermission sid uid role => grant_permission sid uid role
  | GetAllPendingInvites sid => get_all_pending_invites sid
  | Invite sid e u r m => invite sid e u r m
  | InviteBatch sid es us m => invite_batch sid es us m
  | InviteCancel sid i => invite_cancel sid i
  | InviteUse sid t a => invite_use sid t a
  | UpdatePermission sid uid role => update_permission sid uid role
  | RevokePermission sid uid => revoke_permission sid uid
  end.

(** The world in which a method makes its tracking call: [grant_permission]
    has issued its deprecation warning by then. *)
Definition at_tracking (c : stream_call) (w : world) : world :=
  match c with
  | GrantPermission _ _ _ => snd (warn deprecated_reason w)
  | _ => w
  end.

End Methods.

End StreamWrappers.

(** ** The object resource ([speckle/api/resources/object.py]) *)

Module ObjectResource.

(** Modelled from the spec: the schema [Base] of [speckle.objects.base] is
    not under src/. The spec gives an object an identifier, a speckle type
    tag, an application id, a creation timestamp, a child count and an
    opaque payload; these are the fields the [Object] query selects. *)
Record Base : Type := mkBase {
  id : pyval;
  speckleType : pyval;
  applicationId : pyval;
  createdAt : pyval;
  totalChildrenCount : pyval;
  data : pyval
}.

Definition field (d : list (string * pyval)) (key : string) : pyval :=
  match dict_get d key with
  | Some v => v
  | None => PNone
  end.

(** Modelled from the spec: deserializing the unwrapped payload into the
    domain model ([self.schema = Base]): each named field of the record is
    the field of that name in the payload. *)
Definition parse_obj (payload : pyval) : outcome Base :=
  match payload with
  | PDict d =>
      Ret (mkBase (field d "id") (field d "speckleType")
                  (field d "applicationId") (field d "createdAt")
                  (field d "totalChildrenCount") (field d "data"))
  | _ => Raise (ValidationError "Base expected dict")
  end.

Definition Object : string :=
  "query Object($stream_id: String!, $object_id: String!) { stream(id: $stream_id) { id name object(id: $object_id) { id speckleType applicationId createdAt totalChildrenCount data } } }".

Definition ObjectCreate : string :=
  "mutation ObjectCreate($object_input: ObjectCreateInput!) { objectCreate(objectInput: $object_input) }".

Section Methods.

Variable executor : request -> outcome pyval.

Definition get (stream_id object_id : string) : M Base :=
  make_request executor Object
    [("stream_id", PStr stream_id); ("object_id", PStr object_id)]
    ["stream"; "object"] parse_obj.

Definition create (stream_id : string) (objects : list pyval) : M pyval :=
  make_request executor ObjectCreate
    [("object_input",
      PDict [("streamId", PStr stream_id); ("objects", PList objects)])]
    ["objectCreate"] unparsed.

End Methods.

End ObjectResource.

(** ** Local accounts ([specklepy/api/credentials.py]) *)

Module Credentials.

(** [next((acc for acc in accounts if acc.isDefault), None)], as the position
    of that account in [accounts]. *)
Fixpoint next_default (accounts : list Account) : option nat :=
  match accounts with
  | [] => None
  | acc :: rest =>
      if isDefault acc then Some O else option_map S (next_default rest)
  end.

Definition with_isDefault (b : bool) (acc : Account) : Account :=
  mkAccount (acc_id acc) (serverUrl acc) (token acc) b.

(** [accounts[r].isDefault = b]: the account object at position [r] is
    changed in place, the others are untouched. *)
Fixpoint assign_isDefault (r : nat) (b : bool) (accounts : list Account)
    : list Account :=
  match accounts, r with
  | [], _ => []
  | acc :: rest, O => with_isDefault b acc :: rest
  | acc :: rest, S r' => acc :: assign_isDefault r' b rest
  end.

(** What a call of [get_default_account] leaves behind: the account objects
    it read, the object it returns (by position, [None] for Python's
    [None]), and the object handed to [metrics.initialise_tracker]. *)
Record lookup : Type := mkLookup {
  accounts : list Account;
  default : option nat;
  initialised : option nat
}.

(** The value the caller receives. *)
Definition returned_account (r : lookup) : option Account :=
  match default r with
  | Some i => nth_error (accounts r) i
  | None => None
  end.

Section Accounts.

Variable tracker : track_event -> option exn.

(** [core_get_local_accounts] ([specklepy.core.api.credentials]) is not
    under src/: the accounts found in the local store are a parameter. *)
Variable core_get_local_accounts : option string -> list Account.

Definition get_local_accounts (base_path : option string) : M (list Account) :=
  let accounts := core_get_local_accounts base_path in
  metrics_track tracker SDK
    (match find isDefault accounts with
     | Some acc => Some acc
     | None => hd_error accounts
     end)
    [("name", "Get Local Accounts")] ;;
  ret accounts.

Definition get_default_account (base_path : option string) : lookup :=
  let accounts := core_get_local_accounts base_path in
  match accounts with
  | [] => mkLookup accounts None None
  | _ :: _ =>
      match next_default accounts with
      | Some i => mkLookup accounts (Some i) (Some i)
      | None => mkLookup (assign_isDefault O true accounts) (Some O) (Some O)
      end
  end.

End Accounts.

End Credentials.

(** ** Calendar dates *)

Module Calendar.

(** A [datetime.date] is kept as its day number, counted from 1970-01-01 in
    the proleptic Gregorian calendar; [date y m d] is the day number of the
    civil date and [civil] its inverse. *)
Definition date (y m d : Z) : Z :=
  let y' := if m <=? 2 then y - 1 else y in
  let era := y' / 400 in
  let yoe := y' - era * 400 in
  let mp := if 2 <? m then m - 3 else m + 9 in
  let doy := (153 * mp + 2) / 5 + d - 1 in
  let doe := yoe * 365 + yoe / 4 - yoe / 100 + doy in
  era * 146097 + doe - 719468.

Definition civil (n : Z) : Z * Z * Z :=
  let z := n + 719468 in
  let era := z / 146097 in
  let doe := z - era * 146097 in
  let yoe := (doe - doe / 1460 + doe / 36524 - doe / 146096) / 365 in
  let doy := doe - (365 * yoe + yoe / 4 - yoe / 100) in
  let mp := (5 * doy + 2) / 153 in
  let d := doy - (153 * mp + 2) / 5 + 1 in
  let m := if mp <? 10 then mp + 3 else mp - 9 in
  let y := yoe + era * 400 in
  (if m <=? 2 then y + 1 else y, m, d).

(** A timestamp is kept as seconds since the epoch (UTC); [.dt.date] keeps
    the day it falls on. *)
Definition dt_date (timestamp : Z) : Z := timestamp / 86400.

Definition timestamp (y m d hh mm ss : Z) : Z :=
  date y m d * 86400 + hh * 3600 + mm * 60 + ss.

End Calendar.

(** ** The dashboard script ([front_end/main.py]) *)

(** *** Python containers the script uses *)

Module Containers.

(** [l[i]] on a list, for an index counted from the front. *)
Definition index {A} (l : list A) (i : nat) : outcome A :=
  match nth_error l i with
  | Some x => Ret x
  | None => Raise (IndexError "list index out of range")
  end.

Definition len {A} (l : list A) : Z := Z.of_nat (List.length l).

(** [d[k] = v] on a [dict]: a known key keeps its place, a new key goes to
    the end. *)
Fixpoint setitem {V} (d : list (string * V)) (k : string) (v : V)
    : list (string * V) :=
  match d with
  | [] => [(k, v)]
  | (k', v') :: rest =>
      if String.eqb k' k then (k', v) :: rest else (k', v') :: setitem rest k v
  end.

(** [dict.fromkeys(iterable)]: every key is mapped to [None]. *)
Definition fromkeys (iterable : list string) : list (string * pyval) :=
  fold_left (fun d k => setitem d k PNone) iterable [].

(** [list(d)]: the keys, in insertion order. *)
Definition keys {V} (d : list (string * V)) : list string := map fst d.

End Containers.

(** *** The data-frame operations the script uses *)

Module Frame.

(** A frame with a key column and a count column, one row per list item. *)
Definition rows (K : Type) : Type := list (K * Z).

Section Sorting.
Context {A : Type} (le : A -> A -> bool).

Fixpoint insert_row (x : A) (l : list A) : list A :=
  match l with
  | [] => [x]
  | y :: rest => if le x y then x :: l else y :: insert_row x rest
  end.

(** A stable sort along [le]. *)
Definition sort_rows (l : list A) : list A := fold_right insert_row [] l.
End Sorting.

Section Keyed.
Context {K : Type} (eqb : K -> K -> bool).

Fixpoint tally (k : K) (t : rows K) : rows K :=
  match t with
  | [] => [(k, 1)]
  | (k', n) :: rest =>
      if eqb k' k then (k', n + 1) :: rest else (k', n) :: tally k rest
  end.

(** [column.value_counts().reset_index()]: one row per distinct value with
    the number of its occurrences, most frequent first. *)
Definition value_counts (column : list K) : rows K :=
  sort_rows (fun a b => snd b <=? snd a)
            (fold_left (fun t k => tally k t) column []).

Fixpoint loc (t : rows K) (k : K) : option Z :=
  match t with
  | [] => None
  | (k', n) :: rest => if eqb k' k then Some n else loc rest k
  end.

(** [frame.set_index(key).reindex(index, fill_value=fill).reset_index()]:
    one row per label of [index], with the count the frame has at that
    label, or [fill] when the frame has no such label. *)
Definition reindex (t : rows K) (index : list K) (fill : Z) : rows K :=
  map (fun k => (k, match loc t k with Some n => n | None => fill end)) index.
End Keyed.

(** [frame.sort_values(key)] for a frame keyed by dates. *)
Definition sort_values (t : rows Z) : rows Z :=
  sort_rows (fun a b => fst a <=? fst b) t.

(** [column.min()] and [column.max()]; an empty column has neither. *)
Definition column_min (column : list Z) : option Z :=
  match column with
  | [] => None
  | x :: rest => Some (fold_left Z.min rest x)
  end.

Definition column_max (column : list Z) : option Z :=
  match column with
  | [] => None
  | x :: rest => Some (fold_left Z.max rest x)
  end.

(** [pd.date_range(start, end)]: every day from [start] to [end], both
    included; empty when [end] is before [start]. *)
Definition date_range (start stop : Z) : list Z :=
  map (fun i => start + Z.of_nat i) (seq 0 (Z.to_nat (stop - start + 1))).

End Frame.

(** *** The script *)

Module Dashboard.
Import Containers Frame Calendar.

(** Modelled from the spec: the domain models of [specklepy.api.models] are
    not under src/; these are the fields the script reads. *)
Record Collaborator : Type := mkCollaborator { collaborator_name : string }.

Record Stream : Type := mkStream {
  stream_id : string;
  stream_name : string;
  collaborators : list Collaborator;
  branches_totalCount : Z
}.

Record Branch : Type := mkBranch {
  branch_name : string;
  commits_totalCount : Z
}.

Record Commit : Type := mkCommit {
  commit_id : string;
  authorName : string;
  sourceApplication : string;
  createdAt : Z                  (* seconds since the epoch *)
}.

(** The authenticated client, as the script uses it. *)
Record SpeckleClient : Type := mkClient {
  stream_list : list Stream;
  stream_search : string -> list Stream;
  branch_list : string -> list Branch;
  commit_list : string -> Z -> list Commit
}.

(** What the script puts on the page (emoji of the labels left out). *)
Inductive widget : Type :=
| Title (text : string)
| Subheader (text : string)
| Markdown (text : string)
| Iframe (src : string) (height : Z)
| Metric (label : string) (value : Z)
| BarChart (data : list (string * Z))
| PieChart (data : list (string * Z))
| LineChart (data : list (Z * Z))
| TextInput (label value help : string)
| Selectbox (label : string) (options : list string) (help : string).

Definition UI (A : Type) : Type := ST (list widget) A.

Definition st (w : widget) : UI unit := fun page => (Ret tt, page ++ [w]).

Definition about : string :=
  "We use this space to record collaborators, commits, and timelines, to collect project data in a cohesive, accessible format.".

Definition embed_src (stream : Stream) (commit : Commit) : string :=
  ("https://macad.speckle.xyz/embed?stream=" ++ stream_id stream
     ++ "&commit=" ++ commit_id commit)%string.

Definition listToMarkdown (l : list string) : string :=
  String.concat "" (map (fun i => ("- " ++ i ++ " \n")%string) l).

(** The connector card: the source applications of the commits, the number
    of distinct ones and their names. *)
Definition connectorList (commits : list Commit) : list string :=
  map sourceApplication commits.

Definition connector_count (connectorList : list string) : Z :=
  len (fromkeys connectorList).

Definition connectorNames (connectorList : list string) : list string :=
  keys (fromkeys connectorList).

(** The frame of the commit activity timeline, from the [createdAt] column. *)
Definition cdate (created : list Z) : outcome (rows Z) :=
  let counted := sort_values (value_counts Z.eqb (map dt_date created)) in
  match column_min (map fst counted), column_max (map fst counted) with
  | Some first_day, Some last_day =>
      let null_days := date_range first_day last_day in
      Ret (reindex Z.eqb counted null_days 0)
  | _, _ => Raise (ValueError "Neither `start` nor `end` can be NaT")
  end.

(** The frame of the branch graph: naming the two columns of a frame without
    rows fails. *)
Definition branch_counts (branches : list Branch) : outcome (list (string * Z)) :=
  match branches with
  | [] => Raise (ValueError "Length mismatch: Expected axis has 0 elements, new values have 2 elements")
  | _ :: _ => Ret (map (fun b => (branch_name b, commits_totalCount b)) branches)
  end.

(** [stream = client.stream.search(sName)[0]]. *)
Definition selected_stream (client : SpeckleClient) (sName : string)
    : outcome Stream :=
  index (stream_search client sName) 0.

Section Script.

(** What the operator leaves in the two text inputs; the script opens them
    with a server and a token of its own. *)
Variable speckleServer speckleToken : string.

(** [SpeckleClient(host)], authenticated with the account that
    [get_account_from_token(token, host)] gives: neither is under src/, the
    authenticated client is a parameter. *)
Variable authenticated : string -> string -> SpeckleClient.

(** The operator's choice in the stream dropdown. *)
Variable selectbox : list string -> string.

(** The script, top to bottom. What it prints goes to the console, not to the
    page. *)
Definition main : UI unit :=
  st (Title "Speckle Stream Activity App") ;;
  st (Markdown about) ;;
  st (Subheader "Inputs") ;;
  st (TextInput "Server URL" speckleServer "Speckle server to connect.") ;;
  st (TextInput "Speckle token" speckleToken
        "If you don't know how to get your token, take a look at this [link](<https://speckle.guide/dev/tokens.html>)") ;;
  let client := authenticated speckleServer speckleToken in
  let streams := stream_list client in
  let streamNames := map stream_name streams in
  st (Selectbox "Select your stream" streamNames
        "Select your stream from the dropdown") ;;
  let sName := selectbox streamNames in
  stream <- lift (selected_stream client sName) ;;
  let branches := branch_list client (stream_id stream) in
  let commits := commit_list client (stream_id stream) 100 in
  st (Subheader "Latest Commit") ;;
  latest <- lift (index commits 0) ;;
  st (Iframe (embed_src stream latest) 400) ;;
  st (Subheader "Statistics") ;;
  st (Metric "Number of branches" (branches_totalCount stream)) ;;
  st (Markdown (listToMarkdown (map branch_name branches))) ;;
  st (Metric "Number of commits" (len commits)) ;;
  st (Metric "Number of connectors" (connector_count (connectorList commits))) ;;
  st (Markdown (listToMarkdown (connectorNames (connectorList commits)))) ;;
  st (Metric "Number of contributors" (len (collaborators stream))) ;;
  st (Markdown (listToMarkdown
                  (keys (fromkeys (map collaborator_name (collaborators stream)))))) ;;
  st (Subheader "Graphs") ;;
  counts <- lift (branch_counts branches) ;;
  st (BarChart counts) ;;
  st (PieChart (value_counts String.eqb (map sourceApplication commits))) ;;
  st (PieChart (value_counts String.eqb (map authorName commits))) ;;
  st (Subheader "Commit Activity Timeline") ;;
  series <- lift (cdate (map createdAt commits)) ;;
  st (LineChart series).

End Script.

(** The page reports [text] when one of its text widgets carries it. *)
Definition shows (text : string) (w : widget) : bool :=
  match w with
  | Title t | Subheader t | Markdown t => contains text t
  | _ => false
  end.

Definition reports (text : string) (page : list widget) : bool :=
  existsb (shows text) page.

End Dashboard.


(** ** Vocabulary of the properties *)

Module Described.
Import StreamResource.

(** The forms a reported server version takes: none was reported, the tag
    ["dev"], or a tuple of integers. *)
Inductive reported : Type :=
| Unset
| Dev
| Numeric (segments : list Z).

Definition as_server_version (r : reported) : option version :=
  match r with
  | Unset => None
  | Dev => Some dev
  | Numeric segments => Some (numeric segments)
  end.

(** The threshold of the deprecation of [grant_permission]. *)
Definition threshold : list Z := [2; 6; 4].

(** The usage tag of each method, as an action category and a verb within
    it. No tag is listed for [list]. *)
Definition usage_tag (c : stream_call) : option (action * string) :=
  match c with
  | Get _ _ _ => Some (STREAM, "get")
  | List_ _ => None
  | Create _ _ _ => Some (STREAM, "create")
  | Update _ _ _ _ => Some (STREAM, "update")
  | Delete _ => Some (STREAM, "delete")
  | Search _ _ _ _ => Some (STREAM, "search")
  | Favorite _ _ => Some (STREAM, "favorite")
  | GrantPermission _ _ _ => Some (PERMISSION, "add")
  | UpdatePermission _ _ _ => Some (PERMISSION, "update")
  | RevokePermission _ _ => Some (PERMISSION, "revoke")
  | GetAllPendingInvites _ => Some (INVITE, "get")
  | Invite _ _ _ _ _ => Some (INVITE, "create")
  | InviteBatch _ _ _ _ => Some (INVITE, "batch create")
  | InviteCancel _ _ => Some (INVITE, "cancel")
  | InviteUse _ _ _ => Some (INVITE, "use")
  end.

(** The methods whose usage tag is the method's own name. *)
Definition tagged_by_name (c : stream_call) : bool :=
  match c with
  | Get _ _ _ | Create _ _ _ | Update _ _ _ _ | Delete _
  | Search _ _ _ _ | Favorite _ _ => true
  | _ => false
  end.

(** The distinct names of a list, each at the place of its first occurrence. *)
Fixpoint first_seen (names : list string) : list string :=
  match names with
  | [] => []
  | x :: rest => x :: filter (fun y => negb (String.eqb y x)) (first_seen rest)
  end.

(** The number of commits made on a day. *)
Definition commits_on (day : Z) (days : list Z) : Z :=
  Z.of_nat (count_occ Z.eq_dec days day).

(** The role a call passes on to its usage event: only [grant_permission]
    and [update_permission] do. *)
Definition role_of (c : stream_call) : option string :=
  match c with
  | GrantPermission _ _ role | UpdatePermission _ _ role => Some role
  | _ => None
  end.

(** The sum of the count column of a frame. *)
Definition total {K : Type} (t : Frame.rows K) : Z :=
  fold_right (fun row acc => snd row + acc) 0 t.

(** The line feed, and whether a string holds a given character. *)
Definition line_feed : ascii := ascii_of_nat 10.

Fixpoint holds (c : ascii) (s : string) : bool :=
  match s with
  | EmptyString => false
  | String a rest => Ascii.eqb a c || holds c rest
  end.

(** A version at or past (2, 6, 4), read segment by segment: the first
    segment is an integer above 2, or the version starts 2, b with an integer
    b above 6, or it starts 2, 6, c with an integer c of at least 4. Nothing
    is asked of the segments that follow. *)
Definition at_or_past_threshold (v : version) : Prop :=
  (exists a rest, v = VInt a :: rest /\ 2 < a)
  \/ (exists b rest, v = VInt 2 :: VInt b :: rest /\ 6 < b)
  \/ (exists c rest, v = VInt 2 :: VInt 6 :: VInt c :: rest /\ 4 <= c).

End Described.

(** * Properties *)

(** ** The stream resource *)

Module StreamFacts.
Import StreamResource Described.

Lemma skipn_length_app {A} (l l' : list A) :
  skipn (List.length l) (l ++ l') = l'.
Proof. induction l as [|x l IH]; simpl; auto. Qed.

Lemma skipn_length_same {A} (l : list A) : skipn (List.length l) l = [].
Proof. induction l as [|x l IH]; simpl; auto. Qed.

Lemma tuple_ge_numeric (v t : list Z) :
  tuple_ge (numeric v) (numeric t) = Ret (at_least v t).
Proof.
  revert t; induction v as [|x v IH]; intros [|y t]; simpl; auto.
  unfold numeric in IH. rewrite IH.
  destruct (Z.eqb_spec x y) as [->|Hne].
  - rewrite Z.ltb_irrefl, Z.eqb_refl. reflexivity.
  - destruct (Z.eqb_spec y x) as [Heq|_]; [congruence|].
    rewrite andb_false_l, orb_false_r. f_equal.
    destruct (Z.leb_spec y x), (Z.ltb_spec y x); auto; lia.
Qed.

Lemma at_least_nonempty (v : list Z) :
  at_least v threshold = true -> v <> [].
Proof. intros H ->. discriminate H. Qed.

(** The gate on a version of a reported form. *)
Lemma no_longer_supported_reported (r : reported) :
  no_longer_supported (as_server_version r) =
  Ret match r with
      | Unset => false
      | Dev => true
      | Numeric v => at_least v threshold
      end.
Proof.
  destruct r as [| |v]; simpl; auto.
  destruct v as [|x v]; simpl; auto.
  change (tuple_ge (numeric (x :: v)) (numeric threshold)
          = Ret (at_least (x :: v) threshold)).
  apply tuple_ge_numeric.
Qed.

Ltac run_call :=
  unfold call, get, list_, create, update, delete, search, favorite,
    get_all_pending_invites, invite, invite_batch, invite_cancel, invite_use,
    update_permission, revoke_permission, track, metrics_track, super, bind,
    result, final;
  simpl.

(** What [grant_permission] does, by the answer of the version gate. *)
Lemma grant_permission_run tracker executor self stream_id user_id role w :
  let ev := mkEvent PERMISSION (account self) [("name", "add"); ("role", role)] in
  let q := match tracker ev with
           | None => queued w ++ [ev]
           | Some _ => queued w
           end in
  let w1 := mkWorld (tracked w ++ [ev]) q (warned w ++ [deprecated_reason]) (sent w) in
  grant_permission tracker executor self stream_id user_id role w =
  match no_longer_supported (server_version self) with
  | Raise e => (Raise e, w1)
  | Ret true => (Raise (UnsupportedException unsupported_message), w1)
  | Ret false =>
      make_request executor StreamGrantPermission
        [("permission_params",
          PDict [("streamId", PStr stream_id);
                 ("userId", PStr user_id);
                 ("role", PStr role)])]
        ["streamGrantPermission"] unparsed w1
  end.
Proof.
  unfold grant_permission, bind, warn, track, metrics_track, lift, raise; simpl.
  destruct (no_longer_supported (server_version self)) as [[|]|e]; reflexivity.
Qed.

(** C8: for every operation of the stream resource other than
    [grant_permission] and for all arguments, the tracking wrapper returns
    what the base resource returns on the same arguments, and leaves the
    request log as the base resource leaves it: it adds the tracking call and
    changes neither the arguments nor the result. *)
Theorem wrapper_returns_core_result :
  forall tracker executor Core_Resource self (c : stream_call) (w : world),
    is_grant_permission c = false ->
    let r := call tracker executor Core_Resource self c w in
    result r = fst (Core_Resource c (sent w))
    /\ sent (final r) = snd (Core_Resource c (sent w))
    /\ warned (final r) = warned w.
Proof.
  intros tracker executor Core self c w Hc.
  destruct c; try discriminate Hc; run_call;
    destruct (Core _ (sent w)) as [r s]; simpl; auto.
Qed.

Lemma wrapper_returns_core_result_witness :
  is_grant_permission (Delete "a1b2") = false
  /\ (let r := call (fun _ => None) (fun _ => Ret PNone)
                 (fun _ s => (Ret (PBool true), s ++ [mkRequest "StreamDelete" []]))
                 (mkResource None None) (Delete "a1b2") empty_world in
      result r = Ret (PBool true)
      /\ sent (final r) = [mkRequest "StreamDelete" []]
      /\ warned (final r) = []).
Proof.
  split; [reflexivity|].
  exact (wrapper_returns_core_result (fun _ => None) (fun _ => Ret PNone)
           (fun _ s => (Ret (PBool true), s ++ [mkRequest "StreamDelete" []]))
           (mkResource None None) (Delete "a1b2") empty_world eq_refl).
Defined.

(** C2, as amended: every call on the stream resource makes exactly one call
    of [metrics.track], for the account of the resource. For [get], [create],
    [update], [delete], [search] and [favorite] the name tag of the event is
    the name of the method; the permission and invite methods are tagged with
    their action category and a verb within it ([usage_tag]). *)
Theorem call_emits_one_event :
  forall tracker executor Core_Resource self (c : stream_call) (w : world),
    exists ev,
      emitted w (final (call tracker executor Core_Resource self c w)) = [ev]
      /\ ev_account ev = account self
      /\ match usage_tag c with
         | Some (a, verb) => ev_action ev = a /\ name_tag ev = Some verb
         | None => True
         end
      /\ (if tagged_by_name c then name_tag ev = Some (method_name c) else True).
Proof.
  intros tracker executor Core self c w.
  destruct c;
    try (run_call; destruct (Core _ (sent w)) as [r s];
         eexists; unfold emitted; simpl; rewrite skipn_length_app;
         repeat split; reflexivity).
  unfold call, final. rewrite grant_permission_run.
  eexists. unfold emitted, make_request.
  destruct (no_longer_supported (server_version self)) as [[|]|e]; simpl;
    repeat match goal with
           | |- context [match ?x with _ => _ end] => destruct x; simpl
           end;
    rewrite skipn_length_app; repeat split; reflexivity.
Qed.

(** C2 fails as stated: a call of [invite] is tagged ["create"]. *)
Lemma invite_tag_is_not_its_name :
  let c := Invite "3073b96e86" (Some "ada@example.org") None "stream:contributor" None in
  let r := call (fun _ => None) (fun _ => Ret PNone)
             (fun _ s => (Ret (PBool true), s)) (mkResource None None) c empty_world in
  emitted empty_world (final r) = [mkEvent INVITE None [("name", "create")]]
  /\ ~ (exists ev, emitted empty_world (final r) = [ev]
                   /\ name_tag ev = Some (method_name c)).
Proof.
  split; [reflexivity|].
  intros [ev [Hev Htag]]. vm_compute in Hev. inversion Hev; subst ev.
  vm_compute in Htag. discriminate Htag.
Qed.

(** The request [grant_permission] hands to the request executor. *)
Lemma grant_permission_sends tracker executor self stream_id user_id role w :
  no_longer_supported (server_version self) = Ret false ->
  let req := mkRequest StreamGrantPermission
               [("permission_params",
                 PDict [("streamId", PStr stream_id);
                        ("userId", PStr user_id);
                        ("role", PStr role)])] in
  let r := grant_permission tracker executor self stream_id user_id role w in
  sent (final r) = sent w ++ [req]
  /\ result r = match executor req with
                | Ret response => getitem response "streamGrantPermission"
                | Raise e => Raise e
                end.
Proof.
  intros Hgate. simpl. rewrite grant_permission_run, Hgate.
  unfold make_request, final, result; simpl.
  destruct (executor _) as [response|e]; simpl; auto.
  destruct (getitem response "streamGrantPermission"); simpl; auto.
Qed.

(** C1: every call of [grant_permission] on a resource whose server version is
    a numeric version at least 2.6.4 raises [UnsupportedException] with no
    request handed to the request executor, and the message of the exception
    names the replacements [update_permission] and [invite]. *)
Theorem grant_permission_rejected_locally :
  forall tracker executor self stream_id user_id role (v : list Z) (w : world),
    server_version self = Some (numeric v) ->
    at_least v threshold = true ->
    let r := grant_permission tracker executor self stream_id user_id role w in
    result r = Raise (UnsupportedException unsupported_message)
    /\ sent (final r) = sent w
    /\ requested w (final r) = []
    /\ contains "`update_permission`" unsupported_message = true
    /\ contains "`invite`" unsupported_message = true.
Proof.
  intros tracker executor self sid uid role v w Hsv Hge. simpl.
  rewrite grant_permission_run, Hsv.
  change (Some (numeric v)) with (as_server_version (Numeric v)).
  rewrite no_longer_supported_reported, Hge.
  unfold result, final, requested; simpl.
  rewrite skipn_length_same. repeat split; reflexivity.
Qed.

Lemma grant_permission_rejected_locally_witness :
  server_version (mkResource None (Some (numeric [2; 7; 0]))) = Some (numeric [2; 7; 0])
  /\ at_least [2; 7; 0] threshold = true
  /\ (let r := grant_permission (fun _ => None) (fun _ => Ret (PDict [("streamGrantPermission", PBool true)]))
                 (mkResource None (Some (numeric [2; 7; 0])))
                 "3073b96e86" "d4e5f6" "stream:reviewer" empty_world in
      result r = Raise (UnsupportedException unsupported_message)
      /\ sent (final r) = sent empty_world
      /\ requested empty_world (final r) = []
      /\ contains "`update_permission`" unsupported_message = true
      /\ contains "`invite`" unsupported_message = true).
Proof.
  split; [reflexivity|]. split; [reflexivity|].
  exact (grant_permission_rejected_locally (fun _ => None)
           (fun _ => Ret (PDict [("streamGrantPermission", PBool true)]))
           (mkResource None (Some (numeric [2; 7; 0])))
           "3073b96e86" "d4e5f6" "stream:reviewer" [2; 7; 0] empty_world
           eq_refl eq_refl).
Defined.

(** A numeric version below the threshold passes the gate: the mutation is
    handed to the request executor. *)
Example grant_permission_below_threshold :
  let r := grant_permission (fun _ => None)
             (fun _ => Ret (PDict [("streamGrantPermission", PBool true)]))
             (mkResource None (Some (numeric [2; 6; 3])))
             "3073b96e86" "d4e5f6" "stream:reviewer" empty_world in
  result r = Ret (PBool true) /\ List.length (sent (final r)) = 1%nat.
Proof. split; reflexivity. Qed.

(** A tuple that mixes a tag with integers is neither form of a reported
    version: comparing it with (2, 6, 4) raises [TypeError] before any
    request. *)
Example grant_permission_mixed_tuple :
  let r := grant_permission (fun _ => None) (fun _ => Ret PNone)
             (mkResource None (Some [VStr "dev"; VInt 1]))
             "3073b96e86" "d4e5f6" "stream:reviewer" empty_world in
  returned (result r) = false /\ sent (final r) = [].
Proof. split; reflexivity. Qed.

(** *** Further properties of [grant_permission] and of the usage events *)

Lemma grant_permission_emitted
    tracker executor self stream_id user_id role (w : world) :
  emitted w (final (grant_permission tracker executor self stream_id user_id role w))
  = [mkEvent PERMISSION (account self) [("name", "add"); ("role", role)]].
Proof.
  rewrite grant_permission_run. unfold emitted, make_request, final.
  destruct (no_longer_supported (server_version self)) as [[|]|e]; simpl;
    repeat match goal with
           | |- context [match ?x with _ => _ end] => destruct x; simpl
           end;
    rewrite skipn_length_app; reflexivity.
Qed.

(** X1: Whatever the version gate answers, [grant_permission] has issued its
    deprecation warning and made its one tracking call, which carries the
    role. *)
Theorem grant_permission_always_warns_and_tracks :
  forall tracker executor self stream_id user_id role (w : world),
    let r := grant_permission tracker executor self stream_id user_id role w in
    emitted w (final r)
    = [mkEvent PERMISSION (account self) [("name", "add"); ("role", role)]]
    /\ warned (final r) = warned w ++ [deprecated_reason].
Proof.
  intros tracker executor self sid uid role w. cbv zeta.
  rewrite grant_permission_run. unfold emitted, make_request, final.
  destruct (no_longer_supported (server_version self)) as [[|]|e]; simpl;
    repeat match goal with
           | |- context [match ?x with _ => _ end] => destruct x; simpl
           end;
    rewrite skipn_length_app; split; reflexivity.
Qed.

(** X2: A version that starts with a tag and is not exactly [("dev",)] cannot be
    compared with (2, 6, 4): [grant_permission] raises [TypeError], after the
    tracking call and with no request handed to the request executor. *)
Theorem grant_permission_tag_mismatch :
  forall tracker executor account stream_id user_id role
         (s : string) (rest : version) (w : world),
    tuple_eq (VStr s :: rest) dev = false ->
    let self := mkResource account (Some (VStr s :: rest)) in
    let r := grant_permission tracker executor self stream_id user_id role w in
    (exists msg, result r = Raise (TypeError msg))
    /\ sent (final r) = sent w
    /\ emitted w (final r)
       = [mkEvent PERMISSION account [("name", "add"); ("role", role)]].
Proof.
  intros tracker executor acct sid uid role s rest w Hne. cbv zeta.
  rewrite grant_permission_run. unfold no_longer_supported, server_version.
  change [VStr "dev"] with dev. rewrite Hne. simpl.
  unfold result, final, emitted; simpl. rewrite skipn_length_app.
  split; [eexists; reflexivity|]. split; reflexivity.
Qed.

Lemma grant_permission_tag_mismatch_witness :
  tuple_eq [VStr "dev"; VInt 1] dev = false
  /\ (let r := grant_permission (fun _ => None) (fun _ => Ret PNone)
                 (mkResource None (Some [VStr "dev"; VInt 1]))
                 "3073b96e86" "d4e5f6" "stream:reviewer" empty_world in
      (exists msg, result r = Raise (TypeError msg))
      /\ sent (final r) = sent empty_world
      /\ emitted empty_world (final r)
         = [mkEvent PERMISSION None [("name", "add"); ("role", "stream:reviewer")]]).
Proof.
  split; [reflexivity|].
  exact (grant_permission_tag_mismatch (fun _ => None) (fun _ => Ret PNone) None
           "3073b96e86" "d4e5f6" "stream:reviewer" "dev" [VInt 1] empty_world
           eq_refl).
Defined.

(** The two outcomes of [grant_permission] on a numeric version. *)
Lemma grant_permission_numeric tracker executor account stream_id user_id role
    (v : list Z) (w : world) :
  let r := grant_permission tracker executor
             (mkResource account (Some (numeric v))) stream_id user_id role w in
  if at_least v threshold
  then result r = Raise (UnsupportedException unsupported_message)
       /\ requested w (final r) = []
  else List.length (requested w (final r)) = 1%nat.
Proof.
  cbv zeta.
  pose proof (no_longer_supported_reported (Numeric v)) as Hgate.
  destruct (at_least v threshold) eqn:Hge.
  - rewrite grant_permission_run. simpl server_version.
    change (Some (numeric v)) with (as_server_version (Numeric v)).
    rewrite Hgate.
    unfold result, final, requested; simpl. rewrite skipn_length_same.
    split; reflexivity.
  - destruct (grant_permission_sends tracker executor
                (mkResource account (Some (numeric v)))
                stream_id user_id role w Hgate) as [Hs _].
    unfold requested. simpl in Hs. rewrite Hs, skipn_length_app. reflexivity.
Qed.

(** X3: On a version of three integers (a, b, c), [grant_permission] is rejected
    locally exactly when a.b.c is 2.6.4 or later. *)
Theorem grant_permission_three_segments :
  forall tracker executor account stream_id user_id role (a b c : Z) (w : world),
    let self := mkResource account (Some (numeric [a; b; c])) in
    let r := grant_permission tracker executor self stream_id user_id role w in
    (result r = Raise (UnsupportedException unsupported_message)
     /\ requested w (final r) = [])
    <-> (2 < a \/ (a = 2 /\ (6 < b \/ (b = 6 /\ 4 <= c)))).
Proof.
  intros tracker executor acct sid uid role a b c w. cbv zeta.
  pose proof (grant_permission_numeric tracker executor acct sid uid role
                [a; b; c] w) as Hrun. cbv zeta in Hrun.
  assert (at_least [a; b; c] threshold = true
          <-> (2 < a \/ (a = 2 /\ (6 < b \/ (b = 6 /\ 4 <= c))))) as Hiff.
  { unfold threshold; cbn [at_least].
    destruct (Z.ltb_spec 2 a), (Z.eqb_spec 2 a), (Z.ltb_spec 6 b),
      (Z.eqb_spec 6 b), (Z.ltb_spec 4 c), (Z.eqb_spec 4 c); simpl;
      split; intros Hx; try discriminate Hx; try reflexivity; try lia;
      exfalso; lia. }
  destruct (at_least [a; b; c] threshold).
  - split; [intros _; apply Hiff; reflexivity|intros _; exact Hrun].
  - split.
    + intros [_ Hreq]. rewrite Hreq in Hrun. discriminate Hrun.
    + intros H. apply Hiff in H. discriminate H.
Qed.

(** X4: The first segment decides when it is not 2; a version that continues
    (2, 6, 4) is rejected, and the shorter versions (2,) and (2, 6) are not:
    a tuple that runs out before the threshold is lower. *)
Theorem grant_permission_segment_count :
  forall tracker executor account stream_id user_id role
         (a : Z) (rest : list Z) (w : world),
    let run := fun v =>
      grant_permission tracker executor
        (mkResource account (Some (numeric v))) stream_id user_id role w in
    (2 < a -> result (run (a :: rest)) = Raise (UnsupportedException unsupported_message)
              /\ requested w (final (run (a :: rest))) = [])
    /\ (a < 2 -> List.length (requested w (final (run (a :: rest)))) = 1%nat)
    /\ (result (run (2 :: 6 :: 4 :: rest)) = Raise (UnsupportedException unsupported_message)
        /\ requested w (final (run (2 :: 6 :: 4 :: rest))) = [])
    /\ List.length (requested w (final (run [2]))) = 1%nat
    /\ List.length (requested w (final (run [2; 6]))) = 1%nat.
Proof.
  intros tracker executor acct sid uid role a rest w. cbv zeta.
  pose proof (grant_permission_numeric tracker executor acct sid uid role) as Hrun.
  cbv zeta in Hrun.
  split; [|split; [|split; [|split]]].
  - intros Ha. specialize (Hrun (a :: rest) w).
    assert (at_least (a :: rest) threshold = true) as Hge.
    { unfold threshold; cbn [at_least].
      destruct (Z.ltb_spec 2 a); [reflexivity|lia]. }
    rewrite Hge in Hrun. exact Hrun.
  - intros Ha. specialize (Hrun (a :: rest) w).
    assert (at_least (a :: rest) threshold = false) as Hge.
    { unfold threshold; cbn [at_least].
      destruct (Z.ltb_spec 2 a), (Z.eqb_spec 2 a); first [lia|reflexivity]. }
    rewrite Hge in Hrun. exact Hrun.
  - specialize (Hrun (2 :: 6 :: 4 :: rest) w).
    assert (at_least (2 :: 6 :: 4 :: rest) threshold = true) as Hge
      by (destruct rest; reflexivity).
    rewrite Hge in Hrun. exact Hrun.
  - exact (Hrun [2] w).
  - exact (Hrun [2; 6] w).
Qed.

(** The event of a call: the category and verb of its method, and the role
    where the call passes one on. *)
Definition usage_event (self : Resource) (c : stream_call) : track_event :=
  let (category, verb) :=
    match usage_tag c with
    | Some tag => tag
    | None => (STREAM, "get")
    end in
  mkEvent category (account self)
    (("name", verb) :: match role_of c with
                       | Some role => [("role", role)]
                       | None => []
                       end).

Lemma call_emitted tracker executor Core_Resource self (c : stream_call) (w : world) :
  emitted w (final (call tracker executor Core_Resource self c w))
  = [usage_event self c].
Proof.
  destruct c;
    try (run_call; destruct (Core_Resource _ (sent w)) as [r s];
         unfold emitted; simpl; rewrite skipn_length_app; reflexivity).
  unfold call.
  apply (grant_permission_emitted tracker executor self).
Qed.

(** X5: Nothing but the method and the role reaches the usage events: two calls
    of the same method with the same role emit the same events, whatever the
    stream ids, user ids, e-mail addresses, tokens, messages and limits they
    are made with, and whatever the base resource and the executor answer. *)
Theorem telemetry_carries_no_arguments :
  forall tracker tracker' executor executor' Core_Resource Core_Resource' self
         (c c' : stream_call) (w w' : world),
    method_name c = method_name c' ->
    role_of c = role_of c' ->
    emitted w (final (call tracker executor Core_Resource self c w))
    = emitted w' (final (call tracker' executor' Core_Resource' self c' w')).
Proof.
  intros tracker tracker' executor executor' Core Core' self c c' w w' Hm Hr.
  rewrite !call_emitted. f_equal.
  destruct c, c'; try discriminate Hm; simpl in Hr |- *;
    unfold usage_event; simpl; congruence.
Qed.

Lemma telemetry_carries_no_arguments_witness :
  method_name (Invite "3073b96e86" (Some "ada@example.org") None "stream:owner" None)
  = method_name (Invite "77aa01" None (Some "d4e5f6") "stream:reviewer" (Some "welcome"))
  /\ role_of (Invite "3073b96e86" (Some "ada@example.org") None "stream:owner" None)
     = role_of (Invite "77aa01" None (Some "d4e5f6") "stream:reviewer" (Some "welcome"))
  /\ emitted empty_world
       (final (call (fun _ => None) (fun _ => Ret PNone)
                 (fun _ s => (Ret (PBool true), s)) (mkResource None None)
                 (Invite "3073b96e86" (Some "ada@example.org") None "stream:owner" None)
                 empty_world))
     = emitted empty_world
         (final (call (fun _ => None) (fun _ => Ret PNone)
                   (fun _ s => (Raise (GraphQLException "forbidden"), s))
                   (mkResource None None)
                   (Invite "77aa01" None (Some "d4e5f6") "stream:reviewer" (Some "welcome"))
                   empty_world)).
Proof.
  split; [reflexivity|]. split; [reflexivity|].
  exact (telemetry_carries_no_arguments (fun _ => None) (fun _ => None)
           (fun _ => Ret PNone) (fun _ => Ret PNone)
           (fun _ s => (Ret (PBool true), s))
           (fun _ s => (Raise (GraphQLException "forbidden"), s))
           (mkResource None None)
           (Invite "3073b96e86" (Some "ada@example.org") None "stream:owner" None)
           (Invite "77aa01" None (Some "d4e5f6") "stream:reviewer" (Some "welcome"))
           empty_world empty_world eq_refl eq_refl).
Defined.

(** *** The tracking call and the version gate, in general *)

(** With the tracking call of [metrics_track], the methods over any tracking
    call are the methods of [StreamResource]. *)
Lemma wrappers_instance tracker executor Core_Resource self (c : stream_call) :
  StreamWrappers.call (metrics_track tracker) executor Core_Resource self c
  = call tracker executor Core_Resource self c.
Proof. destruct c; reflexivity. Qed.

(** C3, as amended: a method of the stream resource makes its tracking call
    with no handler of its own. When the call raises, the exception reaches
    the caller and the method does nothing more: the base resource and the
    request executor are not called. When the call returns, the method goes
    on to its primary result: for every method other than [grant_permission]
    the result and the requests of the base method on the same arguments, for
    [grant_permission] the version gate and the mutation. *)
Theorem tracking_call_is_unguarded :
  forall track executor Core_Resource self (c : stream_call) (w : world),
    let ev := usage_event self c in
    let run := StreamWrappers.call track executor Core_Resource self c w in
    match track (ev_action ev) (ev_account ev) (ev_props ev)
                (StreamWrappers.at_tracking c w) with
    | (Raise e, w1) => run = (Raise e, w1)
    | (Ret _, w1) =>
        match c with
        | GrantPermission stream_id user_id role =>
            run = StreamWrappers.gate_and_send executor self stream_id user_id role w1
        | _ =>
            result run = fst (Core_Resource c (sent w1))
            /\ sent (final run) = snd (Core_Resource c (sent w1))
        end
    end.
Proof.
  intros track executor Core self c w.
  destruct c; cbv zeta;
    unfold usage_event, StreamWrappers.at_tracking, StreamWrappers.call,
      StreamWrappers.get, StreamWrappers.list_, StreamWrappers.create,
      StreamWrappers.update, StreamWrappers.delete, StreamWrappers.search,
      StreamWrappers.favorite, StreamWrappers.grant_permission,
      StreamWrappers.get_all_pending_invites, StreamWrappers.invite,
      StreamWrappers.invite_batch, StreamWrappers.invite_cancel,
      StreamWrappers.invite_use, StreamWrappers.update_permission,
      StreamWrappers.revoke_permission, warn, bind, super, result, final;
    simpl;
    match goal with
    | |- context [track ?a ?b ?p ?w0] =>
        destruct (track a b p w0) as [[[]|e] w1]
    end;
    try reflexivity;
    destruct (Core _ (sent w1)) as [r s']; split; reflexivity.
Qed.

(** C3 fails as stated: when the tracking call raises, [delete] raises too
    and the base method, which would have answered [True], is never called. *)
Lemma raising_track_reaches_the_caller :
  let Core_Resource := fun (_ : stream_call) (s : list request) =>
    (Ret (PBool true), s ++ [mkRequest "StreamDelete" []]) in
  let run := StreamWrappers.call
               (fun _ _ _ => raise (ValueError "queue is full"))
               (fun _ => Ret PNone) Core_Resource (mkResource None None)
               (Delete "a1b2") empty_world in
  fst (Core_Resource (Delete "a1b2") []) = Ret (PBool true)
  /\ result run = Raise (ValueError "queue is full")
  /\ sent (final run) = [].
Proof. repeat split; reflexivity. Qed.

Ltac not_at_or_past :=
  let H := fresh in
  intros [H|H];
  [try discriminate H; try (inversion H; subst; congruence)
  |unfold at_or_past_threshold in H;
   repeat match goal with
          | H : _ \/ _ |- _ => destruct H
          | H : exists _, _ |- _ => destruct H
          | H : _ /\ _ |- _ => destruct H
          end;
   try discriminate;
   match goal with
   | H : _ :: _ = _ :: _ |- _ => inversion H; subst; try lia; try congruence
   end].

(** What the version gate answers on a version, any tuple of integer and
    string segments: it rejects exactly the tag ["dev"] and the versions at or
    past the threshold, and it raises nothing but [TypeError]. *)
Lemma gate_decides (v : version) :
  match no_longer_supported (Some v) with
  | Ret true => v = dev \/ at_or_past_threshold v
  | Ret false => ~ (v = dev \/ at_or_past_threshold v)
  | Raise e => (exists msg, e = TypeError msg)
               /\ ~ (v = dev \/ at_or_past_threshold v)
  end.
Proof.
  unfold no_longer_supported, truthy.
  destruct v as [|[a|s] r1]; [not_at_or_past| |].
  - cbn [tuple_eq tuple_ge seg_eq seg_ge andb].
    destruct (Z.eqb_spec a 2) as [->|Ha].
    + destruct r1 as [|[b|s] r2]; cbn [tuple_ge seg_eq seg_ge];
        [not_at_or_past| |split; [eexists; reflexivity|not_at_or_past]].
      destruct (Z.eqb_spec b 6) as [->|Hb].
      * destruct r2 as [|[c|s] r3]; cbn [tuple_ge seg_eq seg_ge];
          [not_at_or_past| |split; [eexists; reflexivity|not_at_or_past]].
        destruct (Z.eqb_spec c 4) as [->|Hc].
        { destruct r3; right; right; right; eexists; eexists; split;
            try reflexivity; lia. }
        destruct (Z.leb_spec 4 c).
        { right; right; right. eexists; eexists; split; [reflexivity|lia]. }
        not_at_or_past.
      * destruct (Z.leb_spec 6 b).
        { right; right; left. eexists; eexists; split; [reflexivity|lia]. }
        not_at_or_past.
    + destruct (Z.leb_spec 2 a).
      { right; left. eexists; eexists; split; [reflexivity|lia]. }
      not_at_or_past.
  - cbn [tuple_eq tuple_ge seg_eq seg_ge].
    destruct (String.eqb_spec s "dev") as [->|Hs].
    + destruct r1 as [|x r1]; cbn [tuple_eq andb].
      * left. reflexivity.
      * cbn [tuple_ge seg_eq seg_ge].
        split; [eexists; reflexivity|not_at_or_past].
    + cbn [andb tuple_ge seg_eq seg_ge].
      split; [eexists; reflexivity|not_at_or_past].
Qed.

(** On tuples of integers, at or past the threshold is [at_least]. *)
Lemma at_or_past_numeric (segments : list Z) :
  at_or_past_threshold (numeric segments) <-> at_least segments threshold = true.
Proof.
  destruct segments as [|a segments].
  - split; [|discriminate]. unfold at_or_past_threshold.
    intros [[? [? [H _]]]|[[? [? [H _]]]|[? [? [H _]]]]]; discriminate H.
  - pose proof (gate_decides (numeric (a :: segments))) as Hv.
    change (Some (numeric (a :: segments)))
      with (as_server_version (Numeric (a :: segments))) in Hv.
    rewrite no_longer_supported_reported in Hv.
    destruct (at_least (a :: segments) threshold).
    + split; [reflexivity|]. intros _.
      destruct Hv as [Hdev|Hp]; [discriminate Hdev|exact Hp].
    + split; [|discriminate]. intros Hp. exfalso. apply Hv. right. exact Hp.
Qed.

(** C9, as amended: [grant_permission] is rejected locally (it raises
    [UnsupportedException] and hands no request to the request executor) if and
    only if the server version is set and is the tag ["dev"] or at or past
    (2, 6, 4) in the order of Python tuples: its first segment is an integer
    above 2, or it starts 2, b with b above 6, or it starts 2, 6, c with c at
    least 4, whatever follows. When the server version is unset ([None], or
    the empty tuple) the mutation is handed to the request executor and its
    answer is the result. *)
Theorem grant_permission_gate_exact :
  forall tracker executor account stream_id user_id role
         (sv : option version) (w : world),
    let self := mkResource account sv in
    let run := grant_permission tracker executor self stream_id user_id role w in
    let req := mkRequest StreamGrantPermission
                 [("permission_params",
                   PDict [("streamId", PStr stream_id);
                          ("userId", PStr user_id);
                          ("role", PStr role)])] in
    ((result run = Raise (UnsupportedException unsupported_message)
      /\ requested w (final run) = [])
     <-> (exists v, sv = Some v /\ (v = dev \/ at_or_past_threshold v)))
    /\ (truthy sv = false ->
        requested w (final run) = [req]
        /\ result run = match executor req with
                        | Ret response => getitem response "streamGrantPermission"
                        | Raise e => Raise e
                        end).
Proof.
  intros tracker executor acct sid uid role sv w. cbv zeta.
  assert (forall Hno : no_longer_supported sv = Ret false,
             requested w (final (grant_permission tracker executor
                                   (mkResource acct sv) sid uid role w))
             = [mkRequest StreamGrantPermission
                  [("permission_params",
                    PDict [("streamId", PStr sid); ("userId", PStr uid);
                           ("role", PStr role)])]]
             /\ result (grant_permission tracker executor
                          (mkResource acct sv) sid uid role w)
                = match executor (mkRequest StreamGrantPermission
                           [("permission_params",
                             PDict [("streamId", PStr sid); ("userId", PStr uid);
                                    ("role", PStr role)])]) with
                  | Ret response => getitem response "streamGrantPermission"
                  | Raise e => Raise e
                  end) as Hsends.
  { intros Hno.
    destruct (grant_permission_sends tracker executor (mkResource acct sv)
                sid uid role w Hno) as [Hs Hres].
    simpl in Hs, Hres. unfold requested. rewrite Hs, skipn_length_app.
    split; [reflexivity|exact Hres]. }
  split.
  - destruct sv as [v|].
    + pose proof (gate_decides v) as Hv.
      destruct (no_longer_supported (Some v)) as [[|]|e] eqn:Hgate.
      * split; [intros _; exists v; split; [reflexivity|exact Hv]|].
        intros _. rewrite grant_permission_run. simpl server_version.
        rewrite Hgate. unfold result, final, requested; simpl.
        rewrite skipn_length_same. split; reflexivity.
      * split.
        { intros [_ Hreq]. destruct (Hsends eq_refl) as [Hs _].
          rewrite Hs in Hreq. discriminate Hreq. }
        { intros [v' [Hv' Hp]]. inversion Hv'; subst v'. contradiction. }
      * destruct Hv as [[msg ->] Hnot]. split.
        { intros [Hres _]. rewrite grant_permission_run in Hres.
          simpl server_version in Hres. rewrite Hgate in Hres.
          discriminate Hres. }
        { intros [v' [Hv' Hp]]. inversion Hv'; subst v'. contradiction. }
    + split.
      * intros [_ Hreq]. destruct (Hsends eq_refl) as [Hs _].
        rewrite Hs in Hreq. discriminate Hreq.
      * intros [v [Hv _]]. discriminate Hv.
  - intros Hfalsy. apply Hsends.
    destruct sv as [[|x v]|]; try discriminate Hfalsy; reflexivity.
Qed.

(** C9 fails as stated: the version (3, "beta") is neither the tag ["dev"]
    nor a tuple of integers, and [grant_permission] is rejected locally on
    it. *)
Lemma non_numeric_version_is_rejected :
  let v := [VInt 3; VStr "beta"] in
  let run := grant_permission (fun _ => None) (fun _ => Ret PNone)
               (mkResource None (Some v))
               "3073b96e86" "d4e5f6" "stream:reviewer" empty_world in
  result run = Raise (UnsupportedException unsupported_message)
  /\ requested empty_world (final run) = []
  /\ v <> dev
  /\ ~ (exists segments : list Z, v = numeric segments).
Proof.
  split; [reflexivity|]. split; [reflexivity|]. split; [discriminate|].
  intros [[|a [|b segments]] H]; discriminate H.
Qed.

End StreamFacts.

(** ** The object resource *)

Module ObjectFacts.
Import ObjectResource Described.

(** C7: [get] hands the request executor one request: the query [Object],
    which takes [$stream_id] and [$object_id] and selects, under
    [stream.object], the fields [id], [speckleType], [applicationId],
    [createdAt], [totalChildrenCount] and [data], with the two ids as its
    variables. It unwraps the response at the path [stream.object]: the object
    it returns holds, in each of these six fields, the value the response has
    there under [stream.object], whatever else the response holds. *)
Theorem get_unwraps_stream_object :
  forall executor stream_id object_id (w : world)
         (response stream : pyval) (d : list (string * pyval))
         (v_id v_type v_app v_created v_children v_data : pyval),
    let req :=
      mkRequest
        "query Object($stream_id: String!, $object_id: String!) { stream(id: $stream_id) { id name object(id: $object_id) { id speckleType applicationId createdAt totalChildrenCount data } } }"
        [("stream_id", PStr stream_id); ("object_id", PStr object_id)] in
    executor req = Ret response ->
    getitem response "stream" = Ret stream ->
    getitem stream "object" = Ret (PDict d) ->
    dict_get d "id" = Some v_id ->
    dict_get d "speckleType" = Some v_type ->
    dict_get d "applicationId" = Some v_app ->
    dict_get d "createdAt" = Some v_created ->
    dict_get d "totalChildrenCount" = Some v_children ->
    dict_get d "data" = Some v_data ->
    let r := get executor stream_id object_id w in
    sent (final r) = sent w ++ [req]
    /\ result r = Ret (mkBase v_id v_type v_app v_created v_children v_data).
Proof.
  intros executor sid oid w response stream d v1 v2 v3 v4 v5 v6 req
    Hexec Hstream Hobject H1 H2 H3 H4 H5 H6 r.
  subst r req. unfold get, make_request, result, final; simpl.
  change (executor (mkRequest Object
            [("stream_id", PStr sid); ("object_id", PStr oid)])) with
    (executor (mkRequest
       "query Object($stream_id: String!, $object_id: String!) { stream(id: $stream_id) { id name object(id: $object_id) { id speckleType applicationId createdAt totalChildrenCount data } } }"
       [("stream_id", PStr sid); ("object_id", PStr oid)])).
  rewrite Hexec; simpl. rewrite Hstream, Hobject; simpl.
  unfold field. rewrite H1, H2, H3, H4, H5, H6.
  split; reflexivity.
Qed.

Lemma get_unwraps_stream_object_witness :
  let d := [("data", PDict [("units", PStr "m")]);
            ("id", PStr "0042c1d86");
            ("speckleType", PStr "Objects.Geometry.Mesh");
            ("applicationId", PNone);
            ("createdAt", PStr "2024-01-03T10:15:00Z");
            ("totalChildrenCount", PInt 12)] in
  let stream := PDict [("id", PStr "3073b96e86"); ("name", PStr "Tower");
                       ("object", PDict d)] in
  let response := PDict [("stream", stream)] in
  let req :=
    mkRequest
      "query Object($stream_id: String!, $object_id: String!) { stream(id: $stream_id) { id name object(id: $object_id) { id speckleType applicationId createdAt totalChildrenCount data } } }"
      [("stream_id", PStr "3073b96e86"); ("object_id", PStr "0042c1d86")] in
  (fun _ : request => Ret response) req = Ret response
  /\ getitem response "stream" = Ret stream
  /\ getitem stream "object" = Ret (PDict d)
  /\ dict_get d "id" = Some (PStr "0042c1d86")
  /\ dict_get d "speckleType" = Some (PStr "Objects.Geometry.Mesh")
  /\ dict_get d "applicationId" = Some PNone
  /\ dict_get d "createdAt" = Some (PStr "2024-01-03T10:15:00Z")
  /\ dict_get d "totalChildrenCount" = Some (PInt 12)
  /\ dict_get d "data" = Some (PDict [("units", PStr "m")])
  /\ (let r := get (fun _ => Ret response) "3073b96e86" "0042c1d86" empty_world in
      sent (final r) = sent empty_world ++ [req]
      /\ result r
         = Ret (mkBase (PStr "0042c1d86") (PStr "Objects.Geometry.Mesh") PNone
                  (PStr "2024-01-03T10:15:00Z") (PInt 12)
                  (PDict [("units", PStr "m")]))).
Proof.
  do 9 (split; [reflexivity|]).
  exact (get_unwraps_stream_object
           (fun _ => Ret (PDict [("stream",
              PDict [("id", PStr "3073b96e86"); ("name", PStr "Tower");
                     ("object",
                      PDict [("data", PDict [("units", PStr "m")]);
                             ("id", PStr "0042c1d86");
                             ("speckleType", PStr "Objects.Geometry.Mesh");
                             ("applicationId", PNone);
                             ("createdAt", PStr "2024-01-03T10:15:00Z");
                             ("totalChildrenCount", PInt 12)])])]))
           "3073b96e86" "0042c1d86" empty_world _ _ _ _ _ _ _ _ _
           eq_refl eq_refl eq_refl eq_refl eq_refl eq_refl eq_refl eq_refl
           eq_refl).
Defined.

(** X16: The object resource makes no tracking call and issues no warning: [get]
    and [create] each hand exactly one request to the request executor,
    whatever the executor answers, and leave the rest of the world as it was.
    The request of [create] carries the stream id and the objects in the
    order given. *)
Theorem object_resource_sends_one_request :
  forall executor (stream_id object_id : string) (objects : list pyval) (w : world),
    let g := final (get executor stream_id object_id w) in
    let c := final (create executor stream_id objects w) in
    sent g = sent w ++ [mkRequest Object
                          [("stream_id", PStr stream_id);
                           ("object_id", PStr object_id)]]
    /\ sent c = sent w ++ [mkRequest ObjectCreate
                             [("object_input",
                               PDict [("streamId", PStr stream_id);
                                      ("objects", PList objects)])]]
    /\ tracked g = tracked w /\ tracked c = tracked w
    /\ queued g = queued w /\ queued c = queued w
    /\ warned g = warned w /\ warned c = warned w.
Proof.
  intros executor sid oid objects w. cbv zeta.
  unfold get, create, make_request, final.
  repeat match goal with
         | |- context [match ?x with _ => _ end] => destruct x; simpl
         end;
    repeat split; reflexivity.
Qed.

End ObjectFacts.

(** ** Local accounts *)

Module CredentialsFacts.
Import Credentials.

(** The position [next_default] finds is that of the first flagged account. *)
Lemma next_default_find (l : list Account) :
  match next_default l with
  | Some i => nth_error l i = find isDefault l /\ find isDefault l <> None
  | None => find isDefault l = None
  end.
Proof.
  induction l as [|acc l IH]; simpl; auto.
  destruct (isDefault acc); simpl; [split; [reflexivity|discriminate]|].
  destruct (next_default l); simpl; auto.
Qed.

(** C10: [get_default_account] returns [None] if and only if there is no local
    account; when an account is flagged as default it returns the first such
    account and changes nothing; when accounts exist and none is flagged it
    sets the flag of the first account to [True] and returns that account:
    the first account as it was, with [isDefault] now [True]. *)
Theorem get_default_account_spec :
  forall (core_get_local_accounts : option string -> list Account)
         (base_path : option string),
    let found := core_get_local_accounts base_path in
    let r := get_default_account core_get_local_accounts base_path in
    (returned_account r = None <-> found = [])
    /\ match find isDefault found with
       | Some acc =>
           returned_account r = Some acc
           /\ isDefault acc = true
           /\ accounts r = found
       | None =>
           match found with
           | [] => accounts r = []
           | first :: rest =>
               let flagged :=
                 mkAccount (acc_id first) (serverUrl first) (token first) true in
               returned_account r = Some flagged
               /\ isDefault flagged = true
               /\ default r = Some O
               /\ accounts r = flagged :: rest
               /\ isDefault first = false
           end
       end
    /\ (forall acc, returned_account r = Some acc -> isDefault acc = true)
    /\ initialised r = default r.
Proof.
  intros core base_path. cbv zeta. unfold get_default_account.
  generalize (core base_path) as found. intros found.
  pose proof (next_default_find found) as Hnext.
  destruct found as [|first rest].
  - simpl. repeat split; auto; intros; discriminate.
  - destruct (next_default (first :: rest)) as [i|].
    + destruct Hnext as [Hnth Hsome].
      destruct (find isDefault (first :: rest)) as [acc|] eqn:Hfind;
        [|congruence].
      unfold returned_account.
      cbn [default accounts initialised]. rewrite Hnth.
      apply find_some in Hfind. destruct Hfind as [_ Hflag].
      split; [split; intros H; discriminate H|].
      split; [repeat split; assumption|].
      split; [|reflexivity].
      intros acc' Hacc. inversion Hacc; subst. assumption.
    + rewrite Hnext. unfold returned_account; simpl.
      split; [split; intros H; discriminate H|].
      split.
      { repeat split. simpl in Hnext. destruct (isDefault first); congruence. }
      split; [|reflexivity].
      intros acc' Hacc. inversion Hacc. reflexivity.
Qed.

(** The accounts of a store where the second account carries the flag. *)
Example get_default_account_flagged :
  let a := mkAccount "a" "https://app.speckle.systems" "t1" false in
  let b := mkAccount "b" "https://macad.speckle.xyz" "t2" true in
  returned_account (get_default_account (fun _ => [a; b]) None) = Some b.
Proof. reflexivity. Qed.

Example get_default_account_unflagged :
  let a := mkAccount "a" "https://app.speckle.systems" "t1" false in
  let b := mkAccount "b" "https://macad.speckle.xyz" "t2" false in
  returned_account (get_default_account (fun _ => [a; b]) None)
  = Some (mkAccount "a" "https://app.speckle.systems" "t1" true).
Proof. reflexivity. Qed.

(** *** Further properties of the local accounts *)

Lemma with_isDefault_flagged (acc : Account) :
  isDefault acc = true -> with_isDefault true acc = acc.
Proof. destruct acc as [i u t d]; simpl; intros ->; reflexivity. Qed.

Lemma find_isDefault_none_hd (l : list Account) (acc : Account) :
  find isDefault l = None -> hd_error l = Some acc -> isDefault acc = false.
Proof.
  destruct l as [|a l]; simpl; [discriminate|].
  destruct (isDefault a) eqn:Ha; [discriminate|]. congruence.
Qed.

(** X6: [get_local_accounts] returns the accounts it found untouched, sends no
    request, and makes one tracking call, attributed to the account that
    [get_default_account] returns: the same account up to the default flag,
    which only [get_default_account] sets; with no local account the event
    carries no account. *)
Theorem get_local_accounts_attribution :
  forall tracker (core_get_local_accounts : option string -> list Account)
         (base_path : option string) (w : world),
    let r := get_local_accounts tracker core_get_local_accounts base_path w in
    let d := get_default_account core_get_local_accounts base_path in
    result r = Ret (core_get_local_accounts base_path)
    /\ sent (final r) = sent w
    /\ exists ev,
        StreamResource.emitted w (final r) = [ev]
        /\ ev_action ev = SDK
        /\ StreamResource.name_tag ev = Some "Get Local Accounts"
        /\ option_map (with_isDefault true) (ev_account ev) = returned_account d
        /\ (ev_account ev = None <-> core_get_local_accounts base_path = []).
Proof.
  intros tracker core base_path w. cbv zeta.
  unfold get_local_accounts, get_default_account, bind, metrics_track, ret,
    result, final, StreamResource.emitted.
  generalize (core base_path) as found. intros found. simpl.
  split; [reflexivity|]. split; [reflexivity|].
  rewrite StreamFacts.skipn_length_app. eexists. split; [reflexivity|].
  split; [reflexivity|]. split; [reflexivity|]. simpl.
  pose proof (next_default_find found) as Hnext.
  destruct found as [|first rest]; [simpl; tauto|].
  destruct (next_default (first :: rest)) as [i|].
  - destruct Hnext as [Hnth Hsome].
    destruct (find isDefault (first :: rest)) as [acc|] eqn:Hfind; [|congruence].
    unfold returned_account. cbn [default accounts]. rewrite Hnth. simpl.
    apply find_some in Hfind. rewrite with_isDefault_flagged by apply Hfind.
    split; [reflexivity|]. split; discriminate.
  - rewrite Hnext. unfold returned_account. simpl.
    split; [reflexivity|]. split; discriminate.
Qed.

Lemma assign_first_nth (first : Account) (rest : list Account) (i : nat) :
  i <> O ->
  nth_error (assign_isDefault O true (first :: rest)) i
  = nth_error (first :: rest) i.
Proof. destruct i; [congruence|reflexivity]. Qed.

(** X7: [get_default_account] keeps the number and the identity of the accounts:
    only the account at the front can change, and only by gaining the default
    flag. Afterwards the account it returns is the first flagged account of
    the list, and looking up the default in that list again changes nothing. *)
Theorem get_default_account_invariants :
  forall (core_get_local_accounts : option string -> list Account)
         (base_path : option string),
    let found := core_get_local_accounts base_path in
    let r := get_default_account core_get_local_accounts base_path in
    List.length (accounts r) = List.length found
    /\ (forall i, i <> O -> nth_error (accounts r) i = nth_error found i)
    /\ (forall i a a',
           nth_error found i = Some a -> nth_error (accounts r) i = Some a' ->
           acc_id a' = acc_id a /\ serverUrl a' = serverUrl a /\ token a' = token a
           /\ (isDefault a = true -> isDefault a' = true))
    /\ find isDefault (accounts r) = returned_account r
    /\ get_default_account (fun _ => accounts r) base_path = r.
Proof.
  intros core base_path. cbv zeta. unfold get_default_account.
  generalize (core base_path) as found. intros found.
  pose proof (next_default_find found) as Hnext.
  destruct found as [|first rest].
  - simpl. repeat split; auto; intros; congruence.
  - destruct (next_default (first :: rest)) as [i|] eqn:Hi.
    + destruct Hnext as [Hnth Hsome]. cbn [accounts default]. rewrite Hi.
      unfold returned_account. cbn [accounts default].
      repeat split; auto; try congruence.
    + cbn [accounts default]. unfold returned_account. cbn [accounts default].
      assert (isDefault first = false) as Hfirst
        by (apply (find_isDefault_none_hd (first :: rest)); auto).
      split; [reflexivity|]. split; [intros i Hi0; apply assign_first_nth, Hi0|].
      split.
      { intros [|i] a a' Ha Ha'; simpl in Ha, Ha'.
        - inversion Ha; inversion Ha'; subst. destruct a; simpl.
          repeat split; auto.
        - rewrite Ha in Ha'. inversion Ha'; subst. repeat split; auto. }
      split; reflexivity.
Qed.

End CredentialsFacts.

(** ** The dashboard *)

Module DashboardFacts.
Import Containers Frame Calendar Dashboard Described.

(** C4, as amended: the dashboard selects the first stream of the list that
    [search] returns for the name chosen in the dropdown; when that list is
    empty the script stops at the selection with [IndexError], and no report
    that no stream was found is put on the page. *)
Theorem selection_takes_first_or_raises :
  forall (speckleServer speckleToken : string)
         (authenticated : string -> string -> SpeckleClient)
         (selectbox : list string -> string),
    let client := authenticated speckleServer speckleToken in
    let sName := selectbox (map stream_name (stream_list client)) in
    let run := main speckleServer speckleToken authenticated selectbox [] in
    match stream_search client sName with
    | s :: _ => selected_stream client sName = Ret s
    | [] =>
        selected_stream client sName = Raise (IndexError "list index out of range")
        /\ result run = Raise (IndexError "list index out of range")
        /\ reports "no stream found" (final run) = false
    end.
Proof.
  intros speckleServer speckleToken authenticated selectbox client sName run.
  destruct (stream_search client sName) as [|s rest] eqn:Hsearch.
  - assert (selected_stream client sName
            = Raise (IndexError "list index out of range")) as Hsel.
    { unfold selected_stream, index. rewrite Hsearch. reflexivity. }
    split; [exact Hsel|].
    subst run. unfold main, bind, st, lift, result, final.
    fold client. fold sName. rewrite Hsel. split; reflexivity.
  - unfold selected_stream, index. rewrite Hsearch. reflexivity.
Qed.

(** C4 fails as stated: when [search] finds no stream for the chosen name the
    script raises, and the page does not report that no stream was found. *)
Lemma no_stream_found_is_not_reported :
  let client := mkClient [mkStream "3073b96e86" "Tower" [] 1]
                  (fun _ => []) (fun _ => []) (fun _ _ => []) in
  let run := main "macad.speckle.xyz" "0000" (fun _ _ => client)
               (fun _ => "Tower") [] in
  result run = Raise (IndexError "list index out of range")
  /\ reports "no stream found" (final run) = false
  /\ reports "No stream found" (final run) = false.
Proof. repeat split; reflexivity. Qed.

(** *** The connector card *)

Lemma keys_setitem_known {V} (d : list (string * V)) k v :
  In k (keys d) -> keys (setitem d k v) = keys d.
Proof.
  unfold keys. induction d as [|[k' v'] d IH]; simpl; [tauto|].
  intros [->|Hin].
  - rewrite String.eqb_refl. reflexivity.
  - destruct (String.eqb k' k); simpl; [reflexivity|]. rewrite IH; auto.
Qed.

Lemma keys_setitem_new {V} (d : list (string * V)) k v :
  ~ In k (keys d) -> keys (setitem d k v) = keys d ++ [k].
Proof.
  unfold keys. induction d as [|[k' v'] d IH]; simpl; [reflexivity|].
  intros Hnot. destruct (String.eqb_spec k' k) as [->|Hne]; [tauto|].
  simpl. rewrite IH; tauto.
Qed.

Lemma existsb_eqb_in (x : string) (l : list string) :
  existsb (String.eqb x) l = true <-> In x l.
Proof.
  rewrite existsb_exists. split.
  - intros [y [Hin Heq]]. apply String.eqb_eq in Heq. subst; assumption.
  - intros Hin. exists x. split; [assumption|apply String.eqb_refl].
Qed.

Lemma filter_twice {A} (p q : A -> bool) (l : list A) :
  filter p (filter q l) = filter (fun y => q y && p y) l.
Proof.
  induction l as [|x l IH]; simpl; [reflexivity|].
  destruct (q x); simpl; [destruct (p x)|]; rewrite IH; reflexivity.
Qed.

Lemma filter_all {A} (l : list A) : filter (fun _ => true) l = l.
Proof. induction l as [|x l IH]; simpl; [|rewrite IH]; reflexivity. Qed.

(** The keys of a dictionary filled from a list: the keys it had, then the
    new names in the order they are first seen. *)
Lemma keys_fold_setitem (l : list string) :
  forall d : list (string * pyval),
    keys (fold_left (fun d k => setitem d k PNone) l d)
    = keys d ++ filter (fun y => negb (existsb (String.eqb y) (keys d)))
                       (first_seen l).
Proof.
  induction l as [|x l IH]; intros d; simpl.
  - rewrite app_nil_r. reflexivity.
  - rewrite IH, filter_twice.
    destruct (existsb (String.eqb x) (keys d)) eqn:Hx; simpl.
    + apply existsb_eqb_in in Hx. rewrite keys_setitem_known by assumption.
      f_equal. apply filter_ext. intros y.
      destruct (String.eqb_spec y x) as [->|Hne]; simpl; [|reflexivity].
      apply existsb_eqb_in in Hx. rewrite Hx. reflexivity.
    + assert (~ In x (keys d)) as Hnot.
      { intros Hin. apply existsb_eqb_in in Hin. congruence. }
      rewrite keys_setitem_new by assumption.
      rewrite <- app_assoc. simpl. do 2 f_equal.
      apply filter_ext. intros y.
      rewrite existsb_app; simpl. rewrite orb_false_r.
      destruct (String.eqb y x), (existsb (String.eqb y) (keys d)); reflexivity.
Qed.

Lemma first_seen_In (l : list string) (x : string) :
  In x (first_seen l) <-> In x l.
Proof.
  induction l as [|y l IH]; simpl; [tauto|].
  rewrite filter_In, IH.
  destruct (String.eqb_spec x y) as [->|Hne]; simpl.
  - split; auto.
  - split; [tauto|]. intros [Heq|Hin]; [congruence|auto].
Qed.

Lemma first_seen_NoDup (l : list string) : NoDup (first_seen l).
Proof.
  induction l as [|y l IH]; simpl; constructor.
  - rewrite filter_In, String.eqb_refl. simpl. intros [_ H]. discriminate H.
  - apply NoDup_filter. assumption.
Qed.

Lemma connectorNames_first_seen (names : list string) :
  connectorNames names = first_seen names.
Proof.
  unfold connectorNames, fromkeys. rewrite keys_fold_setitem. simpl.
  apply filter_all.
Qed.

(** C6: for any list of source-application names, the connector card shows the
    distinct names in the order they are first seen, and their number; the
    names ["Rhino"; "Rhino"; "Grasshopper"] give the count 2 and the names
    ["Rhino"; "Grasshopper"]. *)
Theorem connector_card_distinct_first_seen :
  forall names : list string,
    connectorNames names = first_seen names
    /\ connector_count names = len (connectorNames names)
    /\ NoDup (connectorNames names)
    /\ (forall x, In x (connectorNames names) <-> In x names)
    /\ connector_count ["Rhino"; "Rhino"; "Grasshopper"] = 2
    /\ connectorNames ["Rhino"; "Rhino"; "Grasshopper"] = ["Rhino"; "Grasshopper"].
Proof.
  intros names. rewrite connectorNames_first_seen.
  split; [reflexivity|]. split.
  { unfold connector_count, len. rewrite <- connectorNames_first_seen.
    unfold connectorNames, keys. rewrite length_map. reflexivity. }
  split; [apply first_seen_NoDup|]. split; [apply first_seen_In|].
  split; reflexivity.
Qed.

(** *** The commit activity timeline *)

Definition count_at (t : rows Z) (d : Z) : Z :=
  match loc Z.eqb t d with Some n => n | None => 0 end.

Lemma loc_tally (k d : Z) (t : rows Z) :
  loc Z.eqb (tally Z.eqb k t) d
  = if k =? d then Some (count_at t d + 1) else loc Z.eqb t d.
Proof.
  unfold count_at. induction t as [|[k' n] t IH]; simpl.
  - destruct (k =? d); reflexivity.
  - destruct (Z.eqb_spec k' k) as [->|Hne]; simpl.
    + destruct (k =? d); reflexivity.
    + rewrite IH. destruct (Z.eqb_spec k' d) as [->|Hne'].
      * destruct (Z.eqb_spec k d); [congruence|reflexivity].
      * reflexivity.
Qed.

Lemma loc_counts (column : list Z) (d : Z) :
  forall t : rows Z,
    loc Z.eqb (fold_left (fun t k => tally Z.eqb k t) column t) d
    = if commits_on d column =? 0 then loc Z.eqb t d
      else Some (count_at t d + commits_on d column).
Proof.
  unfold commits_on, count_at.
  induction column as [|k column IH]; intros t; simpl; [reflexivity|].
  rewrite IH, !loc_tally. unfold count_at.
  destruct (Z.eq_dec k d) as [->|Hne].
  - rewrite Z.eqb_refl.
    destruct (Z.eqb_spec (Z.of_nat (count_occ Z.eq_dec column d)) 0) as [Hz|Hnz];
      destruct (Z.eqb_spec (Z.of_nat (S (count_occ Z.eq_dec column d))) 0);
      try lia; f_equal; lia.
  - destruct (Z.eqb_spec k d); [congruence|]. reflexivity.
Qed.

Lemma loc_In (t : rows Z) (d : Z) :
  loc Z.eqb t d <> None <-> In d (map fst t).
Proof.
  induction t as [|[k n] t IH]; simpl; [tauto|].
  destruct (Z.eqb_spec k d) as [->|Hne].
  - split; [auto|discriminate].
  - rewrite IH. split; [auto|]. intros [Heq|Hin]; [congruence|assumption].
Qed.

Lemma commits_on_In (d : Z) (column : list Z) :
  commits_on d column <> 0 <-> In d column.
Proof.
  unfold commits_on. rewrite (count_occ_In Z.eq_dec). lia.
Qed.

Lemma counts_keys (column : list Z) (d : Z) :
  In d (map fst (fold_left (fun t k => tally Z.eqb k t) column [])) <-> In d column.
Proof.
  rewrite <- loc_In, loc_counts, <- commits_on_In. simpl.
  destruct (Z.eqb_spec (commits_on d column) 0); split; congruence.
Qed.

Lemma tally_NoDup (k : Z) (t : rows Z) :
  NoDup (map fst t) -> NoDup (map fst (tally Z.eqb k t)).
Proof.
  induction t as [|[k' n] t IH]; simpl; intros Hnd.
  - constructor; [simpl; tauto|constructor].
  - inversion Hnd as [|? ? Hnotin Hnd']; subst.
    destruct (Z.eqb_spec k' k) as [->|Hne]; simpl; constructor; auto.
    rewrite <- loc_In, loc_tally.
    destruct (Z.eqb_spec k k'); [congruence|].
    rewrite loc_In. assumption.
Qed.

Lemma counts_NoDup (column : list Z) :
  forall t : rows Z,
    NoDup (map fst t) ->
    NoDup (map fst (fold_left (fun t k => tally Z.eqb k t) column t)).
Proof.
  induction column as [|k column IH]; intros t Hnd; simpl; [assumption|].
  apply IH, tally_NoDup, Hnd.
Qed.

Lemma insert_row_perm {A} (le : A -> A -> bool) (x : A) (l : list A) :
  Permutation (insert_row le x l) (x :: l).
Proof.
  induction l as [|y l IH]; simpl; [reflexivity|].
  destruct (le x y); [reflexivity|].
  rewrite IH. apply perm_swap.
Qed.

Lemma sort_rows_perm {A} (le : A -> A -> bool) (l : list A) :
  Permutation (sort_rows le l) l.
Proof.
  induction l as [|x l IH]; simpl; [reflexivity|].
  rewrite insert_row_perm. constructor. exact IH.
Qed.

(** Rows with distinct keys can be looked up in any order. *)
Lemma loc_perm (t t' : rows Z) (d : Z) :
  Permutation t t' -> NoDup (map fst t) -> loc Z.eqb t d = loc Z.eqb t' d.
Proof.
  induction 1 as [|[k n] t t' Hp IH|[k n] [k' n'] t|t t' t'' Hp IH Hp' IH'];
    simpl; intros Hnd.
  - reflexivity.
  - inversion Hnd; subst. rewrite IH by assumption. reflexivity.
  - inversion Hnd as [|? ? Hnotin _]; subst. simpl in Hnotin.
    destruct (Z.eqb_spec k' d), (Z.eqb_spec k d); subst; try reflexivity.
    tauto.
  - rewrite IH by assumption. apply IH'.
    apply (Permutation_NoDup (Permutation_map fst Hp)). assumption.
Qed.

Lemma sort_rows_NoDup (le : Z * Z -> Z * Z -> bool) (t : rows Z) :
  NoDup (map fst t) -> NoDup (map fst (sort_rows le t)).
Proof.
  apply Permutation_NoDup, Permutation_map, Permutation_sym, sort_rows_perm.
Qed.

Lemma loc_sort_rows (le : Z * Z -> Z * Z -> bool) (t : rows Z) (d : Z) :
  NoDup (map fst t) -> loc Z.eqb (sort_rows le t) d = loc Z.eqb t d.
Proof.
  intros Hnd. apply loc_perm; [apply sort_rows_perm|].
  apply sort_rows_NoDup, Hnd.
Qed.

(** The sorted frame of counts: one row per day with commits, carrying the
    number of commits of that day. *)
Lemma counted_loc (days : list Z) (d : Z) :
  count_at (sort_values (value_counts Z.eqb days)) d = commits_on d days.
Proof.
  unfold count_at, sort_values, value_counts.
  pose proof (counts_NoDup days [] (NoDup_nil _)) as Hnd.
  rewrite !loc_sort_rows; [|assumption|apply sort_rows_NoDup, Hnd].
  rewrite loc_counts. simpl.
  destruct (Z.eqb_spec (commits_on d days) 0); congruence.
Qed.

Lemma counted_keys (days : list Z) (d : Z) :
  In d (map fst (sort_values (value_counts Z.eqb days))) <-> In d days.
Proof.
  unfold sort_values, value_counts.
  etransitivity; [|apply counts_keys].
  split; apply Permutation_in, Permutation_map;
    rewrite !sort_rows_perm; reflexivity.
Qed.

Lemma fold_min_spec (l : list Z) :
  forall a,
    let m := fold_left Z.min l a in
    m <= a /\ (forall y, In y l -> m <= y) /\ (m = a \/ In m l).
Proof.
  induction l as [|y l IH]; intros a; simpl.
  - split; [lia|]. split; [tauto|auto].
  - destruct (IH (Z.min a y)) as [Hle [Hall Hin]].
    split; [lia|]. split.
    + intros z [<-|Hz]; [lia|auto].
    + destruct Hin as [Heq|Hin]; [|auto].
      destruct (Z.min_spec a y) as [[_ Hm]|[_ Hm]]; rewrite Hm in Heq;
        [left|right; left]; congruence.
Qed.

Lemma fold_max_spec (l : list Z) :
  forall a,
    let m := fold_left Z.max l a in
    a <= m /\ (forall y, In y l -> y <= m) /\ (m = a \/ In m l).
Proof.
  induction l as [|y l IH]; intros a; simpl.
  - split; [lia|]. split; [tauto|auto].
  - destruct (IH (Z.max a y)) as [Hle [Hall Hin]].
    split; [lia|]. split.
    + intros z [<-|Hz]; [lia|auto].
    + destruct Hin as [Heq|Hin]; [|auto].
      destruct (Z.max_spec a y) as [[_ Hm]|[_ Hm]]; rewrite Hm in Heq;
        [right; left|left]; congruence.
Qed.

Lemma column_min_spec (column : list Z) :
  column <> [] ->
  exists m, column_min column = Some m
            /\ In m column /\ forall y, In y column -> m <= y.
Proof.
  destruct column as [|x rest]; [congruence|]. intros _.
  destruct (fold_min_spec rest x) as [Hle [Hall Hin]].
  eexists. split; [reflexivity|]. split.
  - simpl. destruct Hin; auto.
  - intros y [<-|Hy]; auto.
Qed.

Lemma column_max_spec (column : list Z) :
  column <> [] ->
  exists m, column_max column = Some m
            /\ In m column /\ forall y, In y column -> y <= m.
Proof.
  destruct column as [|x rest]; [congruence|]. intros _.
  destruct (fold_max_spec rest x) as [Hle [Hall Hin]].
  eexists. split; [reflexivity|]. split.
  - simpl. destruct Hin; auto.
  - intros y [<-|Hy]; auto.
Qed.

Lemma date_range_In (start stop d : Z) :
  In d (date_range start stop) <-> start <= d <= stop.
Proof.
  unfold date_range. rewrite in_map_iff. split.
  - intros [i [<- Hi]]. apply in_seq in Hi. lia.
  - intros Hd. exists (Z.to_nat (d - start)). split; [lia|].
    apply in_seq. lia.
Qed.

Lemma shifted_seq_NoDup (start : Z) (n : nat) :
  forall a, NoDup (map (fun i => start + Z.of_nat i) (seq a n)).
Proof.
  induction n as [|n IH]; intros a; simpl; constructor; [|apply IH].
  rewrite in_map_iff. intros [i [Heq Hi]]. apply in_seq in Hi. lia.
Qed.

Lemma date_range_NoDup (start stop : Z) : NoDup (date_range start stop).
Proof. apply shifted_seq_NoDup. Qed.

Lemma date_range_length (start stop : Z) :
  start <= stop -> len (date_range start stop) = stop - start + 1.
Proof.
  intros Hle. unfold len, date_range. rewrite length_map, length_seq. lia.
Qed.

(** The frame of the timeline, for a list of commits that is not empty. *)
Lemma cdate_series (created : list Z) :
  created <> [] ->
  exists first_day last_day,
    let days := map dt_date created in
    cdate created
    = Ret (map (fun d => (d, commits_on d days)) (date_range first_day last_day))
    /\ In first_day days /\ In last_day days
    /\ forall d, In d days -> first_day <= d <= last_day.
Proof.
  intros Hne. unfold cdate.
  set (days := map dt_date created).
  set (counted := sort_values (value_counts Z.eqb days)).
  assert (map fst counted <> []) as Hkeys.
  { destruct created as [|c created]; [congruence|].
    assert (In (dt_date c) (map fst counted)) as Hin
      by (apply counted_keys; left; reflexivity).
    intros Hnil. rewrite Hnil in Hin. exact Hin. }
  destruct (column_min_spec _ Hkeys) as [lo [-> [Hlo Hmin]]].
  destruct (column_max_spec _ Hkeys) as [hi [-> [Hhi Hmax]]].
  exists lo, hi. cbv zeta. split.
  - f_equal. unfold reindex. apply map_ext. intros d.
    f_equal. apply counted_loc.
  - split; [apply counted_keys, Hlo|]. split; [apply counted_keys, Hhi|].
    intros d Hd. apply counted_keys in Hd. split; auto.
Qed.

(** C5: for every list of commits that is not empty, the series of the commit
    activity timeline holds every day from the day of the earliest commit to
    the day of the latest commit exactly once, and no other day; each day
    carries the number of commits made on it, which is 0 for a day without
    commits. Commits made on 2024-01-01 and 2024-01-03 give the three entries
    2024-01-01, 2024-01-02, 2024-01-03 with the counts 1, 0, 1. *)
Theorem timeline_is_calendar_complete :
  forall created : list Z,
    created <> [] ->
    let days := map dt_date created in
    exists first_day last_day series,
      cdate created = Ret series
      /\ In first_day days /\ In last_day days
      /\ (forall d, In d days -> first_day <= d <= last_day)
      /\ map fst series = date_range first_day last_day
      /\ len series = last_day - first_day + 1
      /\ (forall d, first_day <= d <= last_day ->
                    count_occ Z.eq_dec (map fst series) d = 1%nat)
      /\ (forall d, In d (map fst series) -> first_day <= d <= last_day)
      /\ (forall d n, In (d, n) series -> n = commits_on d days)
      /\ (forall d n, In (d, n) series -> ~ In d days -> n = 0)
      /\ cdate [timestamp 2024 1 1 9 30 0; timestamp 2024 1 3 17 5 0]
         = Ret [(date 2024 1 1, 1); (date 2024 1 2, 0); (date 2024 1 3, 1)]
      /\ map civil [date 2024 1 1; date 2024 1 2; date 2024 1 3]
         = [(2024, 1, 1); (2024, 1, 2); (2024, 1, 3)].
Proof.
  intros created Hne days.
  destruct (cdate_series created Hne) as [lo [hi [Hrun [Hlo [Hhi Hall]]]]].
  fold days in Hrun, Hlo, Hhi, Hall.
  exists lo, hi. eexists. split; [exact Hrun|].
  assert (map fst (map (fun d => (d, commits_on d days)) (date_range lo hi))
          = date_range lo hi) as Hfst.
  { rewrite map_map. simpl. apply map_id. }
  assert (forall d n,
             In (d, n) (map (fun d => (d, commits_on d days)) (date_range lo hi)) ->
             n = commits_on d days) as Hcount.
  { intros d n Hin. apply in_map_iff in Hin. destruct Hin as [k [Heq _]].
    inversion Heq; subst. reflexivity. }
  repeat split; try assumption; try (apply Hall; assumption).
  - unfold len. rewrite length_map. apply date_range_length.
    apply (Hall lo Hlo).
  - intros d Hd. rewrite Hfst.
    apply NoDup_count_occ'; [apply date_range_NoDup|apply date_range_In, Hd].
  - rewrite Hfst in H. apply date_range_In in H. apply H.
  - rewrite Hfst in H. apply date_range_In in H. apply H.
  - intros d n Hin Hnot. rewrite (Hcount d n Hin).
    destruct (Z.eq_dec (commits_on d days) 0) as [Hz|Hnz]; [assumption|].
    apply commits_on_In in Hnz. contradiction.
Qed.

Lemma timeline_is_calendar_complete_witness :
  [timestamp 2024 1 1 9 30 0; timestamp 2024 1 3 17 5 0] <> []
  /\ exists first_day last_day series,
      cdate [timestamp 2024 1 1 9 30 0; timestamp 2024 1 3 17 5 0] = Ret series
      /\ In first_day (map dt_date [timestamp 2024 1 1 9 30 0; timestamp 2024 1 3 17 5 0])
      /\ In last_day (map dt_date [timestamp 2024 1 1 9 30 0; timestamp 2024 1 3 17 5 0])
      /\ (forall d, In d (map dt_date [timestamp 2024 1 1 9 30 0; timestamp 2024 1 3 17 5 0]) ->
                    first_day <= d <= last_day)
      /\ map fst series = date_range first_day last_day
      /\ len series = last_day - first_day + 1
      /\ (forall d, first_day <= d <= last_day ->
                    count_occ Z.eq_dec (map fst series) d = 1%nat)
      /\ (forall d, In d (map fst series) -> first_day <= d <= last_day)
      /\ (forall d n, In (d, n) series ->
                      n = commits_on d (map dt_date [timestamp 2024 1 1 9 30 0; timestamp 2024 1 3 17 5 0]))
      /\ (forall d n, In (d, n) series ->
                      ~ In d (map dt_date [timestamp 2024 1 1 9 30 0; timestamp 2024 1 3 17 5 0]) ->
                      n = 0)
      /\ cdate [timestamp 2024 1 1 9 30 0; timestamp 2024 1 3 17 5 0]
         = Ret [(date 2024 1 1, 1); (date 2024 1 2, 0); (date 2024 1 3, 1)]
      /\ map civil [date 2024 1 1; date 2024 1 2; date 2024 1 3]
         = [(2024, 1, 1); (2024, 1, 2); (2024, 1, 3)].
Proof.
  split; [discriminate|].
  apply (timeline_is_calendar_complete
           [timestamp 2024 1 1 9 30 0; timestamp 2024 1 3 17 5 0]).
  discriminate.
Defined.

(** *** The pie charts and the cards *)

Lemma tally_keys_setitem (k : string) (v : pyval) :
  forall (t : rows string) (d : list (string * pyval)),
    map fst t = keys d ->
    map fst (tally String.eqb k t) = keys (setitem d k v).
Proof.
  unfold keys.
  induction t as [|[k' n] t IH]; intros [|[k'' v'] d] Hk; simpl in *;
    try discriminate; [reflexivity|].
  inversion Hk; subst k''.
  destruct (String.eqb k' k); simpl; [congruence|]. f_equal. apply IH. assumption.
Qed.

(** Counting a column meets its values in the order a dictionary does. *)
Lemma tallies_keys (column : list string) :
  forall (t : rows string) (d : list (string * pyval)),
    map fst t = keys d ->
    map fst (fold_left (fun t k => tally String.eqb k t) column t)
    = keys (fold_left (fun d k => setitem d k PNone) column d).
Proof.
  induction column as [|k column IH]; intros t d Hk; simpl; [assumption|].
  apply IH, tally_keys_setitem, Hk.
Qed.

Lemma tallies_first_seen (column : list string) :
  map fst (fold_left (fun t k => tally String.eqb k t) column [])
  = first_seen column.
Proof.
  rewrite (tallies_keys column [] []) by reflexivity.
  apply connectorNames_first_seen.
Qed.

Lemma loc_tally_string (k d : string) (t : rows string) :
  loc String.eqb (tally String.eqb k t) d
  = if String.eqb k d
    then Some (match loc String.eqb t d with Some n => n + 1 | None => 1 end)
    else loc String.eqb t d.
Proof.
  induction t as [|[k' n] t IH]; simpl.
  - destruct (String.eqb k d); reflexivity.
  - destruct (String.eqb_spec k' k) as [->|Hne]; simpl.
    + destruct (String.eqb k d); reflexivity.
    + rewrite IH. destruct (String.eqb_spec k' d) as [->|Hne'].
      * destruct (String.eqb_spec k d); [congruence|reflexivity].
      * reflexivity.
Qed.

Lemma loc_tallies_string (column : list string) (d : string) :
  forall t : rows string,
    loc String.eqb (fold_left (fun t k => tally String.eqb k t) column t) d
    = match count_occ string_dec column d with
      | O => loc String.eqb t d
      | S m => Some (match loc String.eqb t d with Some n => n | None => 0 end
                     + Z.of_nat (S m))
      end.
Proof.
  induction column as [|k column IH]; intros t; simpl; [reflexivity|].
  rewrite IH, !loc_tally_string.
  destruct (string_dec k d) as [->|Hne].
  - rewrite String.eqb_refl.
    destruct (count_occ string_dec column d), (loc String.eqb t d);
      f_equal; lia.
  - destruct (String.eqb_spec k d); [congruence|]. reflexivity.
Qed.

Lemma loc_of_row (t : rows string) (k : string) (n : Z) :
  NoDup (map fst t) -> In (k, n) t -> loc String.eqb t k = Some n.
Proof.
  induction t as [|[k' n'] t IH]; simpl; intros Hnd Hin; [tauto|].
  inversion Hnd as [|? ? Hnotin Hnd']; subst.
  destruct Hin as [Heq|Hin].
  - inversion Heq; subst. rewrite String.eqb_refl. reflexivity.
  - destruct (String.eqb_spec k' k) as [->|Hne]; [|auto].
    exfalso. apply Hnotin. apply (in_map fst) in Hin. exact Hin.
Qed.

Lemma total_tally (k : string) (t : rows string) :
  total (tally String.eqb k t) = total t + 1.
Proof.
  unfold total. induction t as [|[k' n] t IH]; simpl; [reflexivity|].
  destruct (String.eqb k' k); simpl; lia.
Qed.

Lemma total_tallies (column : list string) :
  forall t : rows string,
    total (fold_left (fun t k => tally String.eqb k t) column t)
    = total t + len column.
Proof.
  unfold len. induction column as [|k column IH]; intros t; simpl List.length.
  - simpl. lia.
  - simpl fold_left. rewrite IH, total_tally. lia.
Qed.

Lemma total_perm {K : Type} (t t' : rows K) :
  Permutation t t' -> total t = total t'.
Proof.
  unfold total. induction 1; simpl; lia.
Qed.

Lemma insert_row_sorted {A} (le : A -> A -> bool) (x : A) (l : list A) :
  (forall a b, le a b = false -> le b a = true) ->
  Sorted (fun a b => le a b = true) l ->
  Sorted (fun a b => le a b = true) (insert_row le x l).
Proof.
  intros Htotal. induction l as [|y l IH]; simpl; intros Hs.
  - repeat constructor.
  - destruct (le x y) eqn:Hxy.
    + constructor; [assumption|constructor; assumption].
    + inversion Hs as [|? ? Hs' Hhd]; subst.
      constructor; [apply IH; assumption|].
      destruct l as [|z l]; simpl.
      * constructor. apply Htotal, Hxy.
      * destruct (le x z); constructor; [apply Htotal, Hxy|].
        inversion Hhd; assumption.
Qed.

Lemma sort_rows_sorted {A} (le : A -> A -> bool) (l : list A) :
  (forall a b, le a b = false -> le b a = true) ->
  Sorted (fun a b => le a b = true) (sort_rows le l).
Proof.
  intros Htotal. induction l as [|x l IH]; simpl; [constructor|].
  apply insert_row_sorted; assumption.
Qed.

(** X12: The data of a pie chart: one slice per distinct value of the column, each
    with the number of rows that carry the value; the slices add up to the
    number of rows and come in order of falling count. *)
Theorem pie_slices_count_the_column :
  forall column : list string,
    let slices := value_counts String.eqb column in
    NoDup (map fst slices)
    /\ (forall k, In k (map fst slices) <-> In k column)
    /\ (forall k n, In (k, n) slices ->
                    n = Z.of_nat (count_occ string_dec column k) /\ 1 <= n)
    /\ total slices = len column
    /\ Sorted (fun a b => snd b <= snd a) slices.
Proof.
  intros column. cbv zeta. unfold value_counts.
  set (counted := fold_left (fun t k => tally String.eqb k t) column []).
  pose proof (sort_rows_perm (fun a b : string * Z => snd b <=? snd a) counted)
    as Hperm.
  assert (NoDup (map fst counted)) as Hnd
    by (unfold counted; rewrite tallies_first_seen; apply first_seen_NoDup).
  split; [apply (Permutation_NoDup (Permutation_map fst (Permutation_sym Hperm))),
          Hnd|].
  split.
  { intros k. etransitivity; [|apply first_seen_In].
    rewrite <- tallies_first_seen. fold counted.
    split; apply Permutation_in, Permutation_map;
      [exact Hperm|exact (Permutation_sym Hperm)]. }
  split.
  { intros k n Hin. apply (Permutation_in _ Hperm) in Hin.
    apply (loc_of_row _ _ _ Hnd) in Hin. unfold counted in Hin.
    rewrite loc_tallies_string in Hin. simpl in Hin.
    destruct (count_occ string_dec column k); [discriminate|].
    inversion Hin. split; lia. }
  split.
  { rewrite (total_perm _ _ Hperm). unfold counted.
    rewrite total_tallies. reflexivity. }
  assert (Sorted (fun a b : string * Z => (snd b <=? snd a) = true)
                 (sort_rows (fun a b => snd b <=? snd a) counted)) as Hs.
  { apply sort_rows_sorted. intros a b Hab.
    apply Z.leb_gt in Hab. apply Z.leb_le. lia. }
  revert Hs. generalize (sort_rows (fun a b : string * Z => snd b <=? snd a) counted).
  induction 1 as [|a l Hs IH Hhd]; constructor; [assumption|].
  destruct Hhd as [|b l Hab]; constructor. apply Z.leb_le, Hab.
Qed.

(** X13: The connectors metric, computed with a dictionary, is the number of slices
    of the connector pie chart, computed with [value_counts]. *)
Theorem connectors_metric_is_slice_count :
  forall commits : list Commit,
    connector_count (connectorList commits)
    = len (value_counts String.eqb (map sourceApplication commits)).
Proof.
  intros commits. unfold connector_count, connectorList, value_counts, len.
  f_equal.
  transitivity (List.length (first_seen (map sourceApplication commits))).
  - rewrite <- connectorNames_first_seen. unfold connectorNames, keys.
    rewrite length_map. reflexivity.
  - rewrite (Permutation_length (sort_rows_perm _ _)).
    rewrite <- tallies_first_seen, length_map. reflexivity.
Qed.

Lemma first_seen_of_distinct (l : list string) :
  NoDup l -> first_seen l = l.
Proof.
  induction 1 as [|x l Hnotin Hnd IH]; simpl; [reflexivity|].
  rewrite IH. f_equal. apply forallb_filter_id, forallb_forall.
  intros y Hy. destruct (String.eqb_spec y x) as [->|_]; [contradiction|reflexivity].
Qed.

(** X14: The contributors metric counts the collaborators, the list under it shows
    their distinct names: the metric is never below the number of names
    listed, and the two agree exactly when no two collaborators share a name. *)
Theorem contributors_metric_counts_duplicates :
  forall cols : list Collaborator,
    let names := map collaborator_name cols in
    len (keys (fromkeys names)) <= len cols
    /\ (len (keys (fromkeys names)) = len cols <-> NoDup names).
Proof.
  intros cols names.
  change (keys (fromkeys names)) with (connectorNames names).
  rewrite connectorNames_first_seen.
  assert (len cols = len names) as -> by (unfold len, names; rewrite length_map; reflexivity).
  assert (List.length (first_seen names) <= List.length names)%nat as Hle.
  { apply NoDup_incl_length; [apply first_seen_NoDup|].
    intros x Hx. apply first_seen_In, Hx. }
  unfold len. split; [lia|]. split.
  - intros Heq. apply NoDup_incl_NoDup with (l := first_seen names).
    + apply first_seen_NoDup.
    + lia.
    + intros x Hx. apply first_seen_In, Hx.
  - intros Hnd. rewrite first_seen_of_distinct by assumption. reflexivity.
Qed.

(** *** More on the commit activity timeline *)

Lemma total_indicator (x : Z) (R : list Z) :
  NoDup R ->
  total (map (fun d => (d, if Z.eq_dec x d then 1 else 0)) R)
  = if in_dec Z.eq_dec x R then 1 else 0.
Proof.
  unfold total. induction 1 as [|y R Hnotin Hnd IH]; simpl; [reflexivity|].
  rewrite IH. destruct (Z.eq_dec x y) as [->|Hne].
  - destruct (Z.eq_dec y y); [|congruence].
    destruct (in_dec Z.eq_dec y R); [contradiction|reflexivity].
  - destruct (Z.eq_dec y x); [congruence|].
    destruct (in_dec Z.eq_dec x R); reflexivity.
Qed.

Lemma total_pointwise_sum (f g : Z -> Z) (R : list Z) :
  total (map (fun d => (d, f d + g d)) R)
  = total (map (fun d => (d, f d)) R) + total (map (fun d => (d, g d)) R).
Proof. unfold total. induction R as [|y R IH]; simpl; lia. Qed.

(** Over distinct days that cover the days of the commits, the daily counts
    add up to the number of commits. *)
Lemma total_commits_on (days R : list Z) :
  NoDup R -> (forall x, In x days -> In x R) ->
  total (map (fun d => (d, commits_on d days)) R) = len days.
Proof.
  intros Hnd. induction days as [|x days IH]; intros Hcover.
  - clear Hnd Hcover. unfold commits_on, total, len. simpl.
    induction R as [|y R IHR]; simpl; [reflexivity|exact IHR].
  - assert (forall d, commits_on d (x :: days)
                      = (if Z.eq_dec x d then 1 else 0) + commits_on d days) as Hstep.
    { intros d. unfold commits_on. simpl. destruct (Z.eq_dec x d); lia. }
    rewrite (map_ext _ _ (fun d => f_equal (pair d) (Hstep d))).
    rewrite total_pointwise_sum, total_indicator by assumption.
    rewrite IH by (intros y Hy; apply Hcover; right; assumption).
    destruct (in_dec Z.eq_dec x R) as [_|Hnot].
    + unfold len. simpl List.length. lia.
    + exfalso. apply Hnot, Hcover. left. reflexivity.
Qed.

(** X10: Filling the gaps neither loses nor invents a commit: for a list of commits
    that is not empty, the counts of the series add up to the number of
    commits. *)
Theorem timeline_keeps_every_commit :
  forall created : list Z,
    created <> [] ->
    exists series, cdate created = Ret series /\ total series = len created.
Proof.
  intros created Hne.
  destruct (cdate_series created Hne) as [lo [hi [Hrun [_ [_ Hall]]]]].
  cbv zeta in Hrun. eexists. split; [exact Hrun|].
  rewrite total_commits_on.
  - unfold len. rewrite length_map. reflexivity.
  - apply date_range_NoDup.
  - intros x Hx. apply date_range_In, Hall, Hx.
Qed.

Lemma timeline_keeps_every_commit_witness :
  [timestamp 2024 1 1 9 30 0; timestamp 2024 1 1 11 0 0; timestamp 2024 1 3 17 5 0] <> []
  /\ exists series,
      cdate [timestamp 2024 1 1 9 30 0; timestamp 2024 1 1 11 0 0;
             timestamp 2024 1 3 17 5 0] = Ret series
      /\ total series
         = len [timestamp 2024 1 1 9 30 0; timestamp 2024 1 1 11 0 0;
                timestamp 2024 1 3 17 5 0].
Proof.
  split; [discriminate|].
  apply (timeline_keeps_every_commit
           [timestamp 2024 1 1 9 30 0; timestamp 2024 1 1 11 0 0;
            timestamp 2024 1 3 17 5 0]).
  discriminate.
Defined.

Lemma nth_error_seq_in (a n i : nat) :
  (i < n)%nat -> nth_error (seq a n) i = Some (a + i)%nat.
Proof.
  revert a i. induction n as [|n IH]; intros a i Hi; [lia|].
  destruct i as [|i]; simpl; [f_equal; lia|].
  rewrite IH by lia. f_equal. lia.
Qed.

Lemma date_range_nth (start stop : Z) (i : nat) :
  Z.of_nat i <= stop - start ->
  nth_error (date_range start stop) i = Some (start + Z.of_nat i).
Proof.
  intros Hi. unfold date_range.
  rewrite nth_error_map, nth_error_seq_in by lia. reflexivity.
Qed.

(** X11: The series never begins or ends with an empty day: for a list of commits
    that is not empty, its first and its last entry are days with at least one
    commit, the first no later than the last. *)
Theorem timeline_ends_on_commit_days :
  forall created : list Z,
    created <> [] ->
    exists series d0 n0 d1 n1,
      cdate created = Ret series
      /\ hd_error series = Some (d0, n0)
      /\ nth_error series (List.length series - 1) = Some (d1, n1)
      /\ 1 <= n0 /\ 1 <= n1 /\ d0 <= d1
      /\ In d0 (map dt_date created) /\ In d1 (map dt_date created).
Proof.
  intros created Hne.
  destruct (cdate_series created Hne) as [lo [hi [Hrun [Hlo [Hhi Hall]]]]].
  cbv zeta in Hrun, Hlo, Hhi, Hall.
  set (days := map dt_date created) in *.
  assert (lo <= hi) as Hle by (apply (Hall lo Hlo)).
  assert (forall d, In d days -> 1 <= commits_on d days) as Hpos.
  { intros d Hd. apply commits_on_In in Hd. unfold commits_on in *. lia. }
  exists (map (fun d => (d, commits_on d days)) (date_range lo hi)),
    lo, (commits_on lo days), hi, (commits_on hi days).
  split; [exact Hrun|].
  assert (List.length (date_range lo hi) = Z.to_nat (hi - lo + 1)) as Hlen
    by (unfold date_range; rewrite length_map, length_seq; reflexivity).
  split.
  { transitivity
      (nth_error (map (fun d => (d, commits_on d days)) (date_range lo hi)) 0).
    - destruct (map (fun d => (d, commits_on d days)) (date_range lo hi));
        reflexivity.
    - rewrite nth_error_map, (date_range_nth lo hi 0) by (simpl; lia).
      simpl. rewrite Z.add_0_r. reflexivity. }
  split.
  { rewrite length_map, Hlen, nth_error_map.
    rewrite date_range_nth by lia. simpl.
    replace (lo + Z.of_nat (Z.to_nat (hi - lo + 1) - 1)) with hi by lia.
    reflexivity. }
  repeat split; auto.
Qed.

Lemma timeline_ends_on_commit_days_witness :
  [timestamp 2024 1 1 9 30 0; timestamp 2024 1 3 17 5 0] <> []
  /\ exists series d0 n0 d1 n1,
      cdate [timestamp 2024 1 1 9 30 0; timestamp 2024 1 3 17 5 0] = Ret series
      /\ hd_error series = Some (d0, n0)
      /\ nth_error series (List.length series - 1) = Some (d1, n1)
      /\ 1 <= n0 /\ 1 <= n1 /\ d0 <= d1
      /\ In d0 (map dt_date [timestamp 2024 1 1 9 30 0; timestamp 2024 1 3 17 5 0])
      /\ In d1 (map dt_date [timestamp 2024 1 1 9 30 0; timestamp 2024 1 3 17 5 0]).
Proof.
  split; [discriminate|].
  apply (timeline_ends_on_commit_days
           [timestamp 2024 1 1 9 30 0; timestamp 2024 1 3 17 5 0]).
  discriminate.
Defined.

(** *** Where the script stops *)

Ltac run_main :=
  unfold main, bind, st, lift, selected_stream, index, result, final.



(** X9: The script runs to its end exactly when the search finds a stream for
    the chosen name and that stream has at least one commit and one branch; it
    then has put twenty-two widgets on the page, the last of them the line
    chart of the commit activity series. *)
Theorem main_completes_iff :
  forall (speckleServer speckleToken : string)
         (authenticated : string -> string -> SpeckleClient)
         (selectbox : list string -> string)
         (page : list widget),
    let client := authenticated speckleServer speckleToken in
    let sName := selectbox (map stream_name (stream_list client)) in
    let run := main speckleServer speckleToken authenticated selectbox page in
    (result run = Ret tt
     <-> exists s rest,
           stream_search client sName = s :: rest
           /\ commit_list client (stream_id s) 100 <> []
           /\ branch_list client (stream_id s) <> [])
    /\ (result run = Ret tt ->
        exists s rest series,
          stream_search client sName = s :: rest
          /\ cdate (map createdAt (commit_list client (stream_id s) 100)) = Ret series
          /\ last (final run) (Title "") = LineChart series
          /\ List.length (final run) = (List.length page + 22)%nat).
Proof.
  intros speckleServer speckleToken authenticated selectbox page client sName run.
  subst run. run_main. fold client. fold sName.
  destruct (stream_search client sName) as [|s rest] eqn:Hsearch;
    cbn [nth_error fst snd].
  { split; [split|]; try discriminate.
    intros [s [rest [H _]]]. discriminate H. }
  destruct (commit_list client (stream_id s) 100) as [|latest commits] eqn:Hcommits;
    cbn [nth_error fst snd].
  { split; [split|]; try discriminate.
    intros [s' [rest' [H [Hc _]]]]. inversion H; subst. congruence. }
  destruct (branch_list client (stream_id s)) as [|b branches] eqn:Hbranches;
    cbn [branch_counts fst snd].
  { split; [split|]; try discriminate.
    intros [s' [rest' [H [_ Hb]]]]. inversion H; subst. congruence. }
  destruct (cdate_series (map createdAt (latest :: commits))) as
    [lo [hi [Hrun _]]]; [discriminate|].
  cbv zeta in Hrun. rewrite Hrun. cbn [fst snd].
  split; [split|].
  - intros _. exists s, rest. repeat split; congruence.
  - reflexivity.
  - intros _. exists s, rest. rewrite Hcommits. eexists.
    split; [reflexivity|]. split; [exact Hrun|]. split.
    + apply last_last.
    + rewrite !length_app. simpl. lia.
Qed.

(** *** The markdown lists *)

Lemma append_empty_r (s : string) : (s ++ "")%string = s.
Proof. induction s as [|a s IH]; simpl; [|rewrite IH]; reflexivity. Qed.

Lemma append_associative (s1 s2 s3 : string) :
  ((s1 ++ s2) ++ s3)%string = (s1 ++ s2 ++ s3)%string.
Proof. induction s1 as [|a s1 IH]; simpl; [|rewrite IH]; reflexivity. Qed.

Lemma concat_cons (x : string) (l : list string) :
  String.concat "" (x :: l) = (x ++ String.concat "" l)%string.
Proof. destruct l; simpl; [rewrite append_empty_r|]; reflexivity. Qed.

Lemma listToMarkdown_cons (i : string) (l : list string) :
  listToMarkdown (i :: l) = (("- " ++ i ++ " \n") ++ listToMarkdown l)%string.
Proof. unfold listToMarkdown. rewrite map_cons, concat_cons. reflexivity. Qed.

Lemma holds_append (c : ascii) (s1 s2 : string) :
  holds c (s1 ++ s2) = holds c s1 || holds c s2.
Proof.
  induction s1 as [|a s1 IH]; simpl; [reflexivity|].
  rewrite IH, orb_assoc. reflexivity.
Qed.

(** X15: The markdown of a list holds one entry per item, in order: a hyphen
    and a space, the item, then a space, a backslash and the letter n. The
    markdown of a concatenation is the concatenation of the markdowns. No
    line feed closes an entry: the text holds a line feed only when an item
    does. *)
Theorem listToMarkdown_joins_items :
  forall (i : string) (a b : list string),
    listToMarkdown [] = ""
    /\ listToMarkdown (i :: a)
       = (String "-" (String " " i)
          ++ String " " (String (ascii_of_nat 92) (String "n" ""))
          ++ listToMarkdown a)%string
    /\ listToMarkdown (a ++ b) = (listToMarkdown a ++ listToMarkdown b)%string
    /\ ((forall j, In j a -> holds line_feed j = false) ->
        holds line_feed (listToMarkdown a) = false)
    /\ (holds line_feed i = true ->
        holds line_feed (listToMarkdown (a ++ i :: b)) = true).
Proof.
  intros i a b. split; [reflexivity|].
  split.
  { rewrite listToMarkdown_cons. simpl. rewrite append_associative. reflexivity. }
  assert (forall l, listToMarkdown (a ++ l)
                    = (listToMarkdown a ++ listToMarkdown l)%string) as Happ.
  { intros l. induction a as [|j a IH]; [reflexivity|].
    rewrite <- app_comm_cons, !listToMarkdown_cons, IH.
    symmetry. apply append_associative. }
  split; [apply Happ|]. split.
  - clear Happ. induction a as [|j a IH]; intros Hitems; [reflexivity|].
    rewrite listToMarkdown_cons, !holds_append, IH
      by (intros k Hk; apply Hitems; right; exact Hk).
    rewrite (Hitems j) by (left; reflexivity). reflexivity.
  - intros Hi. rewrite Happ, listToMarkdown_cons, !holds_append, Hi.
    simpl. rewrite orb_true_r. reflexivity.
Qed.

End DashboardFacts.
